(** * mech/turret.cc: the turret control loop

    A shallow embedding of [mjmech::mech::Turret]: the register codec
    ([Parser::get_int32], [Turret::Impl::MakeCommand]), the periodic poll
    chain ([HandleTimer], [DoPoll], [HandleCommand], [HandleCurrent],
    [HandleFireControl]) and command arbitration ([Turret::SetCommand]).

    Conventions.
    - A C++ [double] is an IEEE 754 binary64 value: Rocq's primitive [float],
      whose operations round to nearest even as the hardware does.
    - [int], [int32_t], [uint32_t], [uint16_t], [uint8_t] and [char] are [Z]
      with the wrap-around of each conversion written out.
    - The asynchronous servo link, the timer and the two signals are not
      executed: every handler returns the list of requests it issued, and the
      completion of a request is a later event of the run loop. *)

From Stdlib Require Import ZArith Lia List Bool.
From Stdlib Require Import Floats.
Import ListNotations.

Set Warnings "-inexact-float".
Local Open Scope Z_scope.

(** ** C++ arithmetic *)

Module Cpp.

Definition double := float.
Bind Scope float_scope with double.

Definition INT_MIN : Z := - 2 ^ 31.
Definition INT_MAX : Z := 2 ^ 31 - 1.

(** [static_cast<uint8_t>], [static_cast<uint16_t>], [static_cast<uint32_t>]
    of an integer: reduction modulo 2^w. *)
Definition to_uint8 (n : Z) : Z := n mod 2 ^ 8.
Definition to_uint16 (n : Z) : Z := n mod 2 ^ 16.
Definition to_uint32 (n : Z) : Z := n mod 2 ^ 32.

(** Conversion of a [uint32_t] to [int32_t]: the value with the same low 32
    bits. *)
Definition to_int32 (n : Z) : Z :=
  let u := to_uint32 n in
  if u <? 2 ^ 31 then u else u - 2 ^ 32.

(** Implicit conversion of an [int] to [double]; exact for every [int]. *)
Definition double_of_int (n : Z) : double :=
  match n with
  | Z0 => PrimFloat.zero
  | Zpos _ => PrimFloat.of_uint63 (Uint63.of_Z n)
  | Zneg p => PrimFloat.opp (PrimFloat.of_uint63 (Uint63.of_Z (Zpos p)))
  end.

(** The integer part of a finite double (rounding toward zero); [None] for
    an infinity or a NaN. *)
Definition trunc_double (x : double) : option Z :=
  match Prim2SF x with
  | S754_zero _ => Some 0
  | S754_finite s m e =>
      let mag := match e with
                 | Zneg k => Z.shiftr (Zpos m) (Zpos k)
                 | _ => Z.shiftl (Zpos m) e
                 end in
      Some (if s then - mag else mag)
  | S754_infinity _ | S754_nan => None
  end.

(** [static_cast<int>(x)] for a double [x]: truncation toward zero.  Where
    the truncated value does not fit an [int] (or [x] is not finite) the
    C++ standard leaves the result open; the x86-64 conversion instruction
    the compiler emits returns [INT_MIN] there, and so does this model. *)
Definition static_cast_int (x : double) : Z :=
  match trunc_double x with
  | Some n => if (INT_MIN <=? n) && (n <=? INT_MAX) then n else INT_MIN
  | None => INT_MIN
  end.

(** [std::min(a, b)] is [(b < a) ? b : a] and [std::max(a, b)] is
    [(a < b) ? b : a], here on doubles. *)
Definition std_min (a b : double) : double :=
  if PrimFloat.ltb b a then b else a.
Definition std_max (a b : double) : double :=
  if PrimFloat.ltb a b then b else a.

(** [a != 0.0] on doubles (true for a NaN). *)
Definition nonzero (a : double) : bool := negb (PrimFloat.eqb a 0%float).

End Cpp.
Import Cpp.

(** ** Register codec *)

(** [Mech::ServoBase::MemReadResponse::register_data], a [std::string]: the
    list of its [char]s. *)
Definition register_data := list Z.

Module Parser.

(** [Parser::get]: [static_cast<uint8_t>(response_.register_data.at(index))];
    [std::string::at] throws [std::out_of_range] past the end ([None]). *)
Definition get (response : register_data) (index : nat) : option Z :=
  option_map to_uint8 (nth_error response index).

(** [get(index) | (get(index + 1) << 7) | (get(index + 2) << 14) |
    (get(index + 3) << 21)], an [int]. *)
Definition reassemble (b0 b1 b2 b3 : Z) : Z :=
  Z.lor (Z.lor (Z.lor b0 (Z.shiftl b1 7)) (Z.shiftl b2 14)) (Z.shiftl b3 21).

(** The body of [Parser::get_int32] once its four bytes are fetched. *)
Definition decode_signed28 (b0 b1 b2 b3 : Z) : Z :=
  let unextended := to_uint32 (reassemble b0 b1 b2 b3) in
  if 0x8000000 <=? unextended
  then to_int32 (unextended - Z.shiftl 0x80 21)
  else to_int32 unextended.

(** [Parser::get_int32]. *)
Definition get_int32 (response : register_data) (index : nat) : option Z :=
  match get response index, get response (index + 1),
        get response (index + 2), get response (index + 3) with
  | Some b0, Some b1, Some b2, Some b3 => Some (decode_signed28 b0 b1 b2 b3)
  | _, _, _, _ => None
  end.

End Parser.

(** ** Data model

    turret.h, which declares these records, is not among the sources; the
    fields are the ones turret.cc reads and writes, with the types its
    expressions give them. *)

Module Imu.
(** [TurretCommand::Imu]. *)
Record t := mk { x_deg : double; y_deg : double }.
End Imu.

Module Absolute.
(** [TurretCommand::Absolute]. *)
Record t := mk { x_deg : double; y_deg : double }.
End Absolute.

Module Rate.
(** [TurretCommand::Rate]. *)
Record t := mk { x_deg_s : double; y_deg_s : double }.
(** Modelled from the spec: the member initialisers of [TurretCommand::Rate]
    are in turret.h, not among the sources; assigning [TurretCommand::Rate()]
    is to "reset rate to zero". *)
Definition default : t := mk 0%float 0%float.
End Rate.

Module TurretCommand.
Record t := mk {
  sequence : Z;
  absolute : option Absolute.t;
  imu : option Imu.t;
  rate : option Rate.t;
  laser_on : bool
}.
End TurretCommand.

(** [boost::posix_time::ptime], as a count of microseconds. *)
Definition ptime := Z.

Module CommandLog.
Record t := mk { timestamp : ptime; command : TurretCommand.t }.
End CommandLog.

Module Parameters.
(** [Turret::Parameters]. *)
Record t := mk {
  period_s : double;
  gimbal_address : Z;
  fire_control_address : Z;
  min_x_deg : double;
  max_x_deg : double;
  min_y_deg : double;
  max_y_deg : double
}.
End Parameters.

Module TurretData.
Record t := mk {
  timestamp : ptime;
  imu_command : option Imu.t;
  imu : Imu.t;
  absolute : Absolute.t;
  fire_enabled : bool;
  agitator_enabled : bool;
  rate : Rate.t;
  last_sequence : Z
}.

(** Assignments to single members of [data_]. *)
Definition set_timestamp (v : ptime) (d : t) : t :=
  mk v (imu_command d) (imu d) (absolute d) (fire_enabled d)
     (agitator_enabled d) (rate d) (last_sequence d).
Definition set_imu_command (v : option Imu.t) (d : t) : t :=
  mk (timestamp d) v (imu d) (absolute d) (fire_enabled d)
     (agitator_enabled d) (rate d) (last_sequence d).
Definition set_imu (v : Imu.t) (d : t) : t :=
  mk (timestamp d) (imu_command d) v (absolute d) (fire_enabled d)
     (agitator_enabled d) (rate d) (last_sequence d).
Definition set_absolute (v : Absolute.t) (d : t) : t :=
  mk (timestamp d) (imu_command d) (imu d) v (fire_enabled d)
     (agitator_enabled d) (rate d) (last_sequence d).
Definition set_fire_enabled (v : bool) (d : t) : t :=
  mk (timestamp d) (imu_command d) (imu d) (absolute d) v
     (agitator_enabled d) (rate d) (last_sequence d).
Definition set_agitator_enabled (v : bool) (d : t) : t :=
  mk (timestamp d) (imu_command d) (imu d) (absolute d) (fire_enabled d)
     v (rate d) (last_sequence d).
Definition set_rate (v : Rate.t) (d : t) : t :=
  mk (timestamp d) (imu_command d) (imu d) (absolute d) (fire_enabled d)
     (agitator_enabled d) v (last_sequence d).

(** Modelled from the spec: turret.h, which holds the member initialisers
    of [TurretData], is not among the sources; the state is "created with
    all-default/zero values at startup" and [imu_command] is "none until
    learned from the device". *)
Definition initial : t :=
  mk 0 None (Imu.mk 0%float 0%float) (Absolute.mk 0%float 0%float)
     false false Rate.default 0.
End TurretData.

(** The registers of the anonymous namespace: position and length. *)
Module Register.
Record t := mk { position : Z; length : Z }.
End Register.

Definition PitchCommand := Register.mk 0x50 4.
Definition YawCommand := Register.mk 0x54 4.
Definition AbsoluteYawCommand := Register.mk 0x68 2.
Definition ImuPitch := Register.mk 0x58 4.
Definition ImuYaw := Register.mk 0x5c 4.
Definition AbsoluteYaw := Register.mk 0x60 2.
Definition LedControl := Register.mk 0x35 1.

(** [base::ErrorCode] as the handlers tell its values apart: no error,
    [boost::asio::error::operation_aborted], or any other error. *)
Inductive ErrorCode :=
| ec_success
| ec_operation_aborted
| ec_error (value : Z).

(** The handler a [MemRead] was given: where its completion is delivered. *)
Inductive ReadHandler := ToHandleCommand | ToHandleCurrent | ToHandleFireControl.

(** What a handler asks of its collaborators, in program order. *)
Inductive Action :=
| AsyncWait (period : double)
    (* timer_.expires_from_now; timer_.async_wait(HandleTimer) *)
| MemRead (address position length : Z) (handler : ReadHandler)
    (* servo_->MemRead(RAM_READ, address, position, length, handler) *)
| MemWrite (address position : Z) (data : list Z)
    (* servo_->MemWrite(RAM_WRITE, address, position, data, HandleWrite) *)
| RamWrite (address : Z) (field : Register.t) (value : Z)
    (* servo_->RamWrite(address, field, value, HandleWrite) *)
| DataSignal (snapshot : TurretData.t)
    (* parent_->turret_data_signal_(&data_) *)
| CommandSignal (log : CommandLog.t).
    (* turret_command_signal_(&log) *)

(** A device write, on either path. *)
Definition is_device_write (a : Action) : bool :=
  match a with
  | MemWrite _ _ _ | RamWrite _ _ _ => true
  | _ => false
  end.

Definition device_writes (l : list Action) : list Action :=
  filter is_device_write l.

(** ** Handlers as state transformers

    A handler runs on [data_], appends to the requests issued so far, and
    either finishes or stops the program: [base::Fail] or an exception that
    leaves the handler. *)

Inductive Halt :=
| Failed (ec : ErrorCode)     (* base::FailIf on a set error code *)
| OutOfRange.                 (* std::out_of_range from std::string::at *)

Inductive Status (A : Type) :=
| Done (a : A)
| Halted (h : Halt).
Arguments Done {A} a.
Arguments Halted {A} h.

Definition M (A : Type) : Type :=
  TurretData.t -> TurretData.t * list Action * Status A.

Definition ret {A} (a : A) : M A := fun d => (d, [], Done a).

Definition bind {A B} (m : M A) (f : A -> M B) : M B :=
  fun d =>
    match m d with
    | (d1, out1, Done a) =>
        match f a d1 with
        | (d2, out2, r) => (d2, out1 ++ out2, r)
        end
    | (d1, out1, Halted h) => (d1, out1, Halted h)
    end.

Notation "x <- m ;; k" := (bind m (fun x => k))
  (at level 61, m at next level, right associativity).
Notation "m ;; k" := (bind m (fun _ => k))
  (at level 61, right associativity).

Definition read_data : M TurretData.t := fun d => (d, [], Done d).
Definition modify (f : TurretData.t -> TurretData.t) : M unit :=
  fun d => (f d, [], Done tt).
Definition issue (a : Action) : M unit := fun d => (d, [a], Done tt).
Definition halt {A} (h : Halt) : M A := fun d => (d, [], Halted h).

(** A value that [std::string::at] may refuse. *)
Definition checked {A} (o : option A) : M A :=
  match o with
  | Some a => ret a
  | None => halt OutOfRange
  end.

(** Modelled from the spec: base/fail.h is not among the sources; a
    transport error is "fatal", so [FailIf] stops the program when the error
    code is set and does nothing otherwise. *)
Definition FailIf (ec : ErrorCode) : M unit :=
  match ec with
  | ec_success => ret tt
  | _ => halt (Failed ec)
  end.

(** The three components of an outcome. *)
Definition final {A} (r : TurretData.t * list Action * Status A) : TurretData.t :=
  fst (fst r).
Definition issued {A} (r : TurretData.t * list Action * Status A) : list Action :=
  snd (fst r).
Definition status {A} (r : TurretData.t * list Action * Status A) : Status A :=
  snd r.

(** The invariant of C10: a handler leaves [last_sequence] as it found it,
    whether it finishes or halts. *)
Definition keeps_last_sequence {A} (m : M A) : Prop :=
  forall d, TurretData.last_sequence (final (m d)) = TurretData.last_sequence d.

(** ** The turret *)

Module Turret.

Section Impl.

(** [parameters_]: fixed while the turret runs. *)
Variable parameters_ : Parameters.t.

(** [Turret::Impl::StartTimer]. *)
Definition StartTimer : M unit :=
  issue (AsyncWait (Parameters.period_s parameters_)).

(** [Turret::Impl::MakeCommand]: the eight bytes of the returned string. *)
Definition MakeCommand (command : Imu.t) : list Z :=
  let pitch_command := static_cast_int (Imu.y_deg command * 1000.0)%float in
  let yaw_command := static_cast_int (Imu.x_deg command * 1000.0)%float in
  let u8 := to_uint8 in
  [ u8 (Z.land pitch_command 0x7f);
    u8 (Z.land (Z.shiftr pitch_command 7) 0x7f);
    u8 (Z.land (Z.shiftr pitch_command 14) 0x7f);
    u8 (Z.land (Z.shiftr pitch_command 21) 0x7f);
    u8 (Z.land yaw_command 0x7f);
    u8 (Z.land (Z.shiftr yaw_command 7) 0x7f);
    u8 (Z.land (Z.shiftr yaw_command 14) 0x7f);
    u8 (Z.land (Z.shiftr yaw_command 21) 0x7f) ].

(** [Turret::Impl::SendImuCommand]. *)
Definition SendImuCommand (command : Imu.t) : M unit :=
  issue (MemWrite (Parameters.gimbal_address parameters_)
                  (Register.position PitchCommand)
                  (MakeCommand command)).

(** The test [data_.rate.x_deg_s != 0.0 || data_.rate.y_deg_s != 0.0]. *)
Definition rate_nonzero (r : Rate.t) : bool :=
  nonzero (Rate.x_deg_s r) || nonzero (Rate.y_deg_s r).

(** The target [next] that [DoPoll] integrates from the current command. *)
Definition next_command (d : TurretData.t) (current : Imu.t) : Imu.t :=
  let next_x := (Imu.x_deg current +
                 Rate.x_deg_s (TurretData.rate d) *
                 Parameters.period_s parameters_)%float in
  let next_y := (Imu.y_deg current +
                 Rate.y_deg_s (TurretData.rate d) *
                 Parameters.period_s parameters_)%float in
  Imu.mk next_x
         (std_max (Parameters.min_y_deg parameters_)
                  (std_min (Parameters.max_y_deg parameters_) next_y)).

(** [Turret::Impl::DoPoll]. *)
Definition DoPoll : M unit :=
  d <- read_data ;;
  match TurretData.imu_command d with
  | None =>
      let kAddressPitchCommand := 0x50 in
      issue (MemRead (Parameters.gimbal_address parameters_)
                     kAddressPitchCommand 8 ToHandleCommand)
  | Some _ => ret tt
  end ;;
  match TurretData.imu_command d with
  | Some current =>
      if rate_nonzero (TurretData.rate d) then
        let next := next_command d current in
        modify (TurretData.set_imu_command (Some next)) ;;
        SendImuCommand next
      else ret tt
  | None => ret tt
  end ;;
  issue (MemRead (Parameters.gimbal_address parameters_)
                 (Register.position ImuPitch)
                 (Register.length ImuPitch + Register.length ImuYaw +
                  Register.length AbsoluteYaw)
                 ToHandleCurrent).

(** [Turret::Impl::HandleTimer]. *)
Definition HandleTimer (ec : ErrorCode) : M unit :=
  match ec with
  | ec_operation_aborted => ret tt
  | _ =>
      FailIf ec ;;
      StartTimer ;;
      DoPoll
  end.

(** [Turret::Impl::Emit]; [now] is the clock reading it takes. *)
Definition Emit (now : ptime) : M unit :=
  modify (TurretData.set_timestamp now) ;;
  d <- read_data ;;
  issue (DataSignal d).

(** [Turret::Impl::HandleCommand]. *)
Definition HandleCommand (ec : ErrorCode) (response : register_data)
    (now : ptime) : M unit :=
  FailIf ec ;;
  pitch <- checked (Parser.get_int32 response 0) ;;
  yaw <- checked (Parser.get_int32 response 4) ;;
  let command := Imu.mk (double_of_int yaw / 1000.0)%float
                        (double_of_int pitch / 1000.0)%float in
  modify (TurretData.set_imu_command (Some command)) ;;
  Emit now.

(** [(absolute_int - 0x3fff) / (0x7fff * 360.0)] of [HandleCurrent]. *)
Definition decode_absolute14 (absolute_int : Z) : double :=
  (double_of_int (absolute_int - 0x3fff) /
   (double_of_int 0x7fff * 360.0))%float.

(** [Turret::Impl::HandleCurrent]. *)
Definition HandleCurrent (ec : ErrorCode) (response : register_data) : M unit :=
  FailIf ec ;;
  pitch <- checked (Parser.get_int32 response 0) ;;
  modify (fun d =>
    TurretData.set_imu
      (Imu.mk (Imu.x_deg (TurretData.imu d)) (double_of_int pitch / 1000.0)%float) d) ;;
  yaw <- checked (Parser.get_int32 response 4) ;;
  modify (fun d =>
    TurretData.set_imu
      (Imu.mk (double_of_int yaw / 1000.0)%float (Imu.y_deg (TurretData.imu d))) d) ;;
  modify (fun d =>
    TurretData.set_absolute
      (Absolute.mk (Absolute.x_deg (TurretData.absolute d))
                   (Imu.y_deg (TurretData.imu d))) d) ;;
  lo <- checked (Parser.get response 8) ;;
  hi <- checked (Parser.get response 9) ;;
  let absolute_int := to_uint16 (Z.lor lo (Z.shiftl hi 7)) in
  modify (fun d =>
    TurretData.set_absolute
      (Absolute.mk (decode_absolute14 absolute_int)
                   (Absolute.y_deg (TurretData.absolute d))) d) ;;
  let kAddressFirePwm := 81 in
  issue (MemRead (Parameters.fire_control_address parameters_)
                 kAddressFirePwm 2 ToHandleFireControl).

(** [Turret::Impl::HandleFireControl]. *)
Definition HandleFireControl (ec : ErrorCode) (response : register_data)
    (now : ptime) : M unit :=
  FailIf ec ;;
  fire <- checked (nth_error response 0) ;;
  modify (TurretData.set_fire_enabled (negb (fire =? 0))) ;;
  agitator <- checked (nth_error response 1) ;;
  modify (TurretData.set_agitator_enabled (negb (agitator =? 0))) ;;
  Emit now.

(** [Turret::Impl::HandleWrite]. *)
Definition HandleWrite (ec : ErrorCode) : M unit := FailIf ec.

(** The yaw register value of the absolute branch of [SetCommand]:
    [std::max(0, std::min(0x3fff,
       static_cast<int>(limited_yaw_deg / 0x3fff * 360.0 + 0x1fff)))]. *)
Definition encode_absolute14 (limited_yaw_deg : double) : Z :=
  Z.max 0 (Z.min 0x3fff
    (static_cast_int (limited_yaw_deg / double_of_int 0x3fff * 360.0 +
                      double_of_int 0x1fff)%float)).

(** The arbitration of [SetCommand], between the sequence test and the laser
    update: [if (command.absolute) ... else if (command.imu) ... else if
    (command.rate) ...]. *)
Definition arbitrate (command : TurretCommand.t) : M unit :=
  match TurretCommand.absolute command,
        TurretCommand.imu command,
        TurretCommand.rate command with
  | Some absolute, _, _ =>
      modify (TurretData.set_imu_command None) ;;
      modify (TurretData.set_rate Rate.default) ;;
      let limited_pitch_deg :=
        std_max (Parameters.min_y_deg parameters_)
                (std_min (Parameters.max_y_deg parameters_)
                         (Absolute.y_deg absolute)) in
      let pitch_command := static_cast_int (limited_pitch_deg * 1000.0)%float in
      issue (RamWrite (Parameters.gimbal_address parameters_)
                      PitchCommand pitch_command) ;;
      let limited_yaw_deg :=
        std_max (Parameters.min_x_deg parameters_)
                (std_min (Parameters.max_x_deg parameters_)
                         (Absolute.x_deg absolute)) in
      let yaw_command := encode_absolute14 limited_yaw_deg in
      issue (RamWrite (Parameters.gimbal_address parameters_)
                      AbsoluteYawCommand yaw_command)
  | None, Some imu, _ =>
      modify (TurretData.set_imu_command (Some imu)) ;;
      modify (TurretData.set_imu_command
                (Some (Imu.mk (Imu.x_deg imu)
                              (std_max (Parameters.min_y_deg parameters_)
                                       (std_min (Parameters.max_y_deg parameters_)
                                                (Imu.y_deg imu)))))) ;;
      modify (TurretData.set_rate Rate.default) ;;
      SendImuCommand imu
  | None, None, Some rate =>
      modify (TurretData.set_rate rate)
  | None, None, None => ret tt
  end.

(** [Turret::SetCommand]; [now] is the clock reading it takes. *)
Definition SetCommand (command : TurretCommand.t) (now : ptime) : M unit :=
  issue (CommandSignal (CommandLog.mk now command)) ;;
  d <- read_data ;;
  if TurretCommand.sequence command =? TurretData.last_sequence d then ret tt
  else
    arbitrate command ;;
    let leds :=
      to_uint8 (Z.shiftl (if TurretCommand.laser_on command then 1 else 0) 2) in
    issue (RamWrite (Parameters.fire_control_address parameters_)
                    LedControl leds).

(** What the run loop delivers to the turret: a timer completion, the
    completion of one of the three reads or of a write, or a command from
    outside. *)
Inductive Event :=
| TimerCompleted (ec : ErrorCode)
| CommandReadCompleted (ec : ErrorCode) (response : register_data) (now : ptime)
| CurrentReadCompleted (ec : ErrorCode) (response : register_data)
| FireControlReadCompleted (ec : ErrorCode) (response : register_data) (now : ptime)
| WriteCompleted (ec : ErrorCode)
| CommandSubmitted (command : TurretCommand.t) (now : ptime).

Definition dispatch (e : Event) : M unit :=
  match e with
  | TimerCompleted ec => HandleTimer ec
  | CommandReadCompleted ec response now => HandleCommand ec response now
  | CurrentReadCompleted ec response => HandleCurrent ec response
  | FireControlReadCompleted ec response now => HandleFireControl ec response now
  | WriteCompleted ec => HandleWrite ec
  | CommandSubmitted command now => SetCommand command now
  end.

(** The handlers run one after the other, never two at once; the program
    ends with the first one that halts. *)
Fixpoint run (events : list Event) : M unit :=
  match events with
  | [] => ret tt
  | e :: rest => dispatch e ;; run rest
  end.

End Impl.

End Turret.

Import Turret.

(** ** Startup *)

Section Start.

Variable parameters_ : Parameters.t.

(** [Turret::AsyncStart]: it starts the timer and posts [handler] with a
    default-constructed [ErrorCode]; the value returned here is that error
    code. *)
Definition AsyncStart : M ErrorCode :=
  StartTimer parameters_ ;;
  ret ec_success.

End Start.

(** ** The requests of a run *)

(** Every request a handler issues satisfies [P], whether it finishes or
    halts. *)
Definition issues_only {A} (P : Action -> Prop) (m : M A) : Prop :=
  forall d, Forall P (issued (m d)).

(** A handler leaves the member (or any function) [f] of [data_] as it found
    it, whether it finishes or halts. *)
Definition preserves {A B} (f : TurretData.t -> B) (m : M A) : Prop :=
  forall d, f (final (m d)) = f d.

Definition is_command (e : Event) : bool :=
  match e with
  | CommandSubmitted _ _ => true
  | _ => false
  end.

Definition is_timer_wait (a : Action) : bool :=
  match a with
  | AsyncWait _ => true
  | _ => false
  end.

(** A timer completion without error: a poll tick. *)
Definition is_tick (e : Event) : bool :=
  match e with
  | TimerCompleted ec_success => true
  | _ => false
  end.

(** The requests turret.cc makes, read off its call sites: the timer wait
    with the configured period; the three reads of [DoPoll] and
    [HandleCurrent]; the eight-byte command write of [SendImuCommand]; the
    pitch, absolute-yaw and LED writes of [SetCommand]. *)
Definition expected_request (p : Parameters.t) (a : Action) : Prop :=
  match a with
  | AsyncWait period => period = Parameters.period_s p
  | MemRead address position length handler =>
      (address = Parameters.gimbal_address p /\ position = 0x50 /\
       length = 8 /\ handler = ToHandleCommand) \/
      (address = Parameters.gimbal_address p /\ position = 0x58 /\
       length = 10 /\ handler = ToHandleCurrent) \/
      (address = Parameters.fire_control_address p /\ position = 81 /\
       length = 2 /\ handler = ToHandleFireControl)
  | MemWrite address position data =>
      address = Parameters.gimbal_address p /\ position = 0x50 /\
      List.length data = 8%nat /\ Forall (fun b => 0 <= b < 128) data
  | RamWrite address field value =>
      (address = Parameters.gimbal_address p /\ field = PitchCommand) \/
      (address = Parameters.gimbal_address p /\ field = AbsoluteYawCommand /\
       0 <= value <= 0x3fff) \/
      (address = Parameters.fire_control_address p /\ field = LedControl /\
       (value = 0 \/ value = 4))
  | DataSignal _ | CommandSignal _ => True
  end.

(** * Properties *)

(** ** The order of doubles

    [<] and [<=] on doubles are specified through [SFcompare] on the decoded
    sign, mantissa and exponent; a NaN compares with nothing. *)

Section DoubleOrder.

Local Open Scope float_scope.

Lemma SFcompare_flip (a b : spec_float) :
  SFcompare b a = option_map CompOpp (SFcompare a b).
Proof.
  destruct a as [sa|sa| |sa ma ea], b as [sb|sb| |sb mb eb]; simpl;
    try reflexivity;
    try (destruct sa; reflexivity); try (destruct sb; reflexivity);
    try (destruct sa, sb; reflexivity).
  destruct sa, sb; simpl; try reflexivity;
    rewrite (Z.compare_antisym ea eb); destruct (ea ?= eb)%Z; simpl;
    try reflexivity;
    rewrite (Pos.compare_cont_antisym ma mb Eq); simpl;
    destruct (Pos.compare_cont Eq ma mb); reflexivity.
Qed.

Lemma SFcompare_Lt_trans (a b c : spec_float) :
  SFcompare a b = Some Lt -> SFcompare b c = Some Lt ->
  SFcompare a c = Some Lt.
Proof.
  destruct a as [sa|sa| |sa ma ea], b as [sb|sb| |sb mb eb],
           c as [sc|sc| |sc mc ec];
    simpl; try discriminate; try congruence;
    repeat match goal with s : bool |- _ => destruct s end; simpl;
    try discriminate; try congruence.
  all: change (Pos.compare_cont Eq) with Pos.compare.
  all: destruct (Z.compare_spec ea eb), (Z.compare_spec eb ec),
         (Z.compare_spec ea ec);
    try discriminate; try congruence; try lia; simpl.
  all: destruct (Pos.compare_spec ma mb), (Pos.compare_spec mb mc),
         (Pos.compare_spec ma mc); simpl;
    try discriminate; try congruence; try lia.
Qed.

Lemma SFcompare_refl (a b : spec_float) (c : comparison) :
  SFcompare a b = Some c -> SFcompare a a = Some Eq /\ SFcompare b b = Some Eq.
Proof.
  assert (R : forall x y d, SFcompare x y = Some d -> SFcompare x x = Some Eq).
  { intros x y d; destruct x as [s|s| |s m e]; simpl.
    - reflexivity.
    - destruct s; reflexivity.
    - discriminate.
    - intros _. destruct s; rewrite Z.compare_refl;
        change (Pos.compare_cont Eq m m) with (Pos.compare m m);
        rewrite Pos.compare_refl; reflexivity. }
  intros H; split.
  - exact (R _ _ _ H).
  - apply (R b a (CompOpp c)). rewrite SFcompare_flip, H. reflexivity.
Qed.

Lemma SFcompare_Eq_inv (a b : spec_float) :
  SFcompare a b = Some Eq ->
  a = b \/ exists sa sb, a = S754_zero sa /\ b = S754_zero sb.
Proof.
  destruct a as [sa|sa| |sa ma ea], b as [sb|sb| |sb mb eb]; simpl; intros H;
    repeat match goal with s : bool |- _ => destruct s end; simpl in H;
    try discriminate H;
    try (left; reflexivity);
    try (right; do 2 eexists; split; reflexivity).
  all: change (Pos.compare_cont Eq ma mb) with (Pos.compare ma mb) in H;
    destruct (Z.compare_spec ea eb); try discriminate H;
    destruct (Pos.compare_spec ma mb); try discriminate H;
    left; subst; reflexivity.
Qed.

Lemma double_lt_asym (a b : double) : (a <? b) = true -> (b <? a) = false.
Proof.
  rewrite !ltb_spec. unfold SFltb.
  rewrite (SFcompare_flip (Prim2SF a) (Prim2SF b)).
  destruct (SFcompare (Prim2SF a) (Prim2SF b)) as [[]|]; simpl;
    intros; try discriminate; reflexivity.
Qed.

Lemma double_lt_trans (a b c : double) :
  (a <? b) = true -> (b <? c) = true -> (a <? c) = true.
Proof.
  rewrite !ltb_spec. unfold SFltb. intros Hab Hbc.
  rewrite (SFcompare_Lt_trans (Prim2SF a) (Prim2SF b) (Prim2SF c)).
  - reflexivity.
  - destruct (SFcompare (Prim2SF a) (Prim2SF b)) as [[]|];
      try discriminate; reflexivity.
  - destruct (SFcompare (Prim2SF b) (Prim2SF c)) as [[]|];
      try discriminate; reflexivity.
Qed.

Lemma double_lt_le (a b : double) : (a <? b) = true -> (a <=? b) = true.
Proof.
  rewrite ltb_spec, leb_spec. unfold SFltb, SFleb.
  destruct (SFcompare (Prim2SF a) (Prim2SF b)) as [[]|];
    intros; try discriminate; reflexivity.
Qed.

Lemma double_le_refl (a b : double) :
  (a <=? b) = true -> (a <=? a) = true /\ (b <=? b) = true.
Proof.
  rewrite !leb_spec. unfold SFleb. intros H.
  destruct (SFcompare (Prim2SF a) (Prim2SF b)) as [c|] eqn:E;
    try discriminate.
  destruct (SFcompare_refl _ _ _ E) as [-> ->]. split; reflexivity.
Qed.

(** Two doubles that compare [<=] but not [<] are the same double, or two
    zeros (which may differ in sign). *)
Lemma double_le_not_lt (a b : double) :
  (a <=? b) = true -> (a <? b) = false ->
  a = b \/ ((a = 0 \/ a = -0) /\ (b = 0 \/ b = -0)).
Proof.
  rewrite ltb_spec, leb_spec. unfold SFltb, SFleb. intros Hle Hlt.
  assert (E : SFcompare (Prim2SF a) (Prim2SF b) = Some Eq).
  { destruct (SFcompare (Prim2SF a) (Prim2SF b)) as [[]|];
      try discriminate; reflexivity. }
  destruct (SFcompare_Eq_inv _ _ E) as [H|(sa & sb & Ha & Hb)].
  - left. apply Prim2SF_inj. exact H.
  - right.
    rewrite <- (SF2Prim_Prim2SF a), <- (SF2Prim_Prim2SF b), Ha, Hb.
    destruct sa, sb; simpl; auto.
Qed.

End DoubleOrder.

(** ** The limiting idiom [std::max(lo, std::min(hi, v))] *)

Section Limit.

Local Open Scope float_scope.

Variables lo hi v : double.

Lemma limit_below :
  (v <? lo) = true -> std_max lo (std_min hi v) = lo.
Proof.
  intros Hv. unfold std_max, std_min.
  destruct (v <? hi) eqn:Hvh.
  - rewrite (double_lt_asym _ _ Hv). reflexivity.
  - destruct (lo <? hi) eqn:Hlh; [|reflexivity].
    rewrite (double_lt_trans _ _ _ Hv Hlh) in Hvh. discriminate.
Qed.

Lemma limit_above :
  (lo <=? hi) = true -> (hi <? v) = true ->
  std_max lo (std_min hi v) = hi \/
  ((std_max lo (std_min hi v) = 0 \/ std_max lo (std_min hi v) = -0) /\
   (hi = 0 \/ hi = -0)).
Proof.
  intros Hle Hv. unfold std_max, std_min.
  rewrite (double_lt_asym _ _ Hv).
  destruct (lo <? hi) eqn:Hlh.
  - left; reflexivity.
  - exact (double_le_not_lt _ _ Hle Hlh).
Qed.

Lemma limit_in_range :
  (lo <=? hi) = true ->
  (lo <=? std_max lo (std_min hi v)) = true /\
  (std_max lo (std_min hi v) <=? hi) = true.
Proof.
  intros Hle. destruct (double_le_refl _ _ Hle) as [Hlo Hhi].
  unfold std_max, std_min.
  destruct (v <? hi) eqn:Hvh.
  - destruct (lo <? v) eqn:Hlv.
    + split; apply double_lt_le; assumption.
    + split; assumption.
  - destruct (lo <? hi) eqn:Hlh; split; assumption.
Qed.

End Limit.

(** Scaling to milli-degrees and truncating does not tell the two zeros
    apart. *)
Lemma millidegrees_of_zeros (a b : double) :
  a = b \/ ((a = 0%float \/ a = (-0)%float) /\ (b = 0%float \/ b = (-0)%float)) ->
  static_cast_int (a * 1000.0)%float = static_cast_int (b * 1000.0)%float.
Proof.
  intros [->|[[->| ->] [->| ->]]]; reflexivity.
Qed.

(** ** The 7-bit register format *)

Section SevenBit.

Lemma lor_below (n a b : Z) :
  0 <= n -> 0 <= a < 2 ^ n -> 0 <= b < 2 ^ n -> 0 <= Z.lor a b < 2 ^ n.
Proof.
  intros Hn Ha Hb. split.
  - apply Z.lor_nonneg. lia.
  - destruct (Z.eq_dec n 0) as [->|Hn0].
    { replace a with 0 by (simpl in Ha; lia).
      replace b with 0 by (simpl in Hb; lia). reflexivity. }
    destruct (Z.eq_dec (Z.lor a b) 0) as [->|Hnz].
    + apply Z.pow_pos_nonneg; lia.
    + assert (0 <= Z.lor a b) by (apply Z.lor_nonneg; lia).
      apply Z.log2_lt_pow2; [lia|].
      rewrite Z.log2_lor by lia.
      apply Z.max_lub_lt.
      * destruct (Z.eq_dec a 0) as [->|]; [simpl; lia|].
        apply Z.log2_lt_pow2; lia.
      * destruct (Z.eq_dec b 0) as [->|]; [simpl; lia|].
        apply Z.log2_lt_pow2; lia.
Qed.

Lemma shiftl_below (a k n : Z) :
  0 <= k -> 0 <= a < 2 ^ n -> 0 <= n -> 0 <= Z.shiftl a k < 2 ^ (n + k).
Proof.
  intros Hk Ha Hn. rewrite Z.shiftl_mul_pow2 by lia.
  rewrite Z.pow_add_r by lia.
  assert (0 < 2 ^ k) by (apply Z.pow_pos_nonneg; lia). nia.
Qed.

Lemma reassemble_below (b0 b1 b2 b3 : Z) :
  0 <= b0 < 256 -> 0 <= b1 < 256 -> 0 <= b2 < 256 -> 0 <= b3 < 256 ->
  0 <= Parser.reassemble b0 b1 b2 b3 < 2 ^ 29.
Proof.
  intros H0 H1 H2 H3. unfold Parser.reassemble.
  pose proof (shiftl_below b1 7 8 ltac:(lia) H1 ltac:(lia)) as S1.
  pose proof (shiftl_below b2 14 8 ltac:(lia) H2 ltac:(lia)) as S2.
  pose proof (shiftl_below b3 21 8 ltac:(lia) H3 ltac:(lia)) as S3.
  simpl Z.add in S1, S2, S3.
  assert (P15 : 2 ^ 15 < 2 ^ 29) by (apply Z.pow_lt_mono_r; lia).
  assert (P22 : 2 ^ 22 < 2 ^ 29) by (apply Z.pow_lt_mono_r; lia).
  assert (P8 : 2 ^ 8 < 2 ^ 29) by (apply Z.pow_lt_mono_r; lia).
  repeat apply lor_below; lia.
Qed.

Lemma decode_signed28_eq (b0 b1 b2 b3 : Z) :
  0 <= b0 < 256 -> 0 <= b1 < 256 -> 0 <= b2 < 256 -> 0 <= b3 < 256 ->
  Parser.decode_signed28 b0 b1 b2 b3 =
    if Parser.reassemble b0 b1 b2 b3 <? 0x8000000
    then Parser.reassemble b0 b1 b2 b3
    else Parser.reassemble b0 b1 b2 b3 - 0x10000000.
Proof.
  intros H0 H1 H2 H3.
  pose proof (reassemble_below b0 b1 b2 b3 H0 H1 H2 H3) as Hu.
  unfold Parser.decode_signed28.
  set (u := Parser.reassemble b0 b1 b2 b3) in *.
  change (Z.shiftl 0x80 21) with 0x10000000.
  change (2 ^ 29) with 536870912 in Hu.
  unfold to_int32, to_uint32.
  change (2 ^ 32) with 4294967296. change (2 ^ 31) with 2147483648.
  rewrite (Z.mod_small u) by lia.
  destruct (Z.leb_spec 0x8000000 u) as [Hge|Hlt];
    destruct (Z.ltb_spec u 0x8000000) as [Hlt'|Hge']; try lia.
  - destruct (Z.lt_ge_cases u 0x10000000) as [Hs|Hs].
    + replace ((u - 0x10000000) mod 4294967296)
        with (u - 0x10000000 + 4294967296).
      * destruct (Z.ltb_spec (u - 0x10000000 + 4294967296) 2147483648); lia.
      * apply Z.mod_unique with (q := -1); lia.
    + rewrite Z.mod_small by lia.
      destruct (Z.ltb_spec (u - 0x10000000) 2147483648); lia.
  - rewrite Z.mod_small by lia.
    destruct (Z.ltb_spec u 2147483648); lia.
Qed.

End SevenBit.

Section SplitJoin.

Lemma testbit_group (n k i : Z) :
  0 <= k -> 0 <= i ->
  Z.testbit (Z.shiftl (Z.land (Z.shiftr n k) 0x7f) k) i =
  (k <=? i) && (i <? k + 7) && Z.testbit n i.
Proof.
  intros Hk Hi.
  change 0x7f with (Z.ones 7). rewrite Z.land_ones by lia.
  rewrite Z.shiftl_spec by lia.
  destruct (Z.leb_spec k i) as [Hki|Hki]; cbn [andb].
  - rewrite Z.testbit_mod_pow2 by lia.
    rewrite Z.shiftr_spec by lia.
    replace (i - k + k) with i by lia.
    destruct (Z.ltb_spec (i - k) 7), (Z.ltb_spec i (k + 7)); try lia;
      reflexivity.
  - apply Z.testbit_neg_r. lia.
Qed.

(** The four 7-bit groups of an [int], put back in place, are its low 28
    bits. *)
Lemma reassemble_groups (n : Z) :
  Parser.reassemble (Z.land n 0x7f)
                    (Z.land (Z.shiftr n 7) 0x7f)
                    (Z.land (Z.shiftr n 14) 0x7f)
                    (Z.land (Z.shiftr n 21) 0x7f) = n mod 2 ^ 28.
Proof.
  unfold Parser.reassemble.
  apply Z.bits_inj'. intros i Hi.
  rewrite !Z.lor_spec.
  rewrite !testbit_group by lia.
  pose proof (testbit_group n 0 i ltac:(lia) Hi) as G0.
  rewrite Z.shiftl_0_r, Z.shiftr_0_r in G0. rewrite G0.
  rewrite Z.testbit_mod_pow2 by lia.
  destruct (Z.leb_spec 0 i), (Z.ltb_spec i (0 + 7)),
    (Z.leb_spec 7 i), (Z.ltb_spec i (7 + 7)),
    (Z.leb_spec 14 i), (Z.ltb_spec i (14 + 7)),
    (Z.leb_spec 21 i), (Z.ltb_spec i (21 + 7)),
    (Z.ltb_spec i 28); try lia; simpl; rewrite ?orb_false_r; reflexivity.
Qed.

Lemma group_below (n : Z) : 0 <= Z.land n 0x7f < 128.
Proof.
  change 0x7f with (Z.ones 7). rewrite Z.land_ones by lia.
  change (2 ^ 7) with 128. apply Z.mod_pos_bound. lia.
Qed.

Lemma to_uint8_group (n : Z) : to_uint8 (Z.land n 0x7f) = Z.land n 0x7f.
Proof.
  unfold to_uint8. change (2 ^ 8) with 256.
  pose proof (group_below n). apply Z.mod_small. lia.
Qed.

Lemma to_uint8_below (n : Z) : 0 <= to_uint8 n < 256.
Proof. unfold to_uint8. change (2 ^ 8) with 256. apply Z.mod_pos_bound. lia. Qed.

(** Decoding the four groups of an [int] that fits 28 bits, sign included,
    gives the [int] back. *)
Lemma decode_groups (n : Z) :
  - 2 ^ 27 <= n < 2 ^ 27 ->
  Parser.decode_signed28 (Z.land n 0x7f)
                         (Z.land (Z.shiftr n 7) 0x7f)
                         (Z.land (Z.shiftr n 14) 0x7f)
                         (Z.land (Z.shiftr n 21) 0x7f) = n.
Proof.
  intros Hn.
  pose proof (group_below n). pose proof (group_below (Z.shiftr n 7)).
  pose proof (group_below (Z.shiftr n 14)).
  pose proof (group_below (Z.shiftr n 21)).
  rewrite decode_signed28_eq by lia.
  rewrite reassemble_groups.
  change (2 ^ 27) with 134217728 in Hn. change (2 ^ 28) with 268435456.
  destruct (Z.lt_ge_cases n 0) as [Hneg|Hpos].
  - replace (n mod 268435456) with (n + 268435456)
      by (apply Z.mod_unique with (q := -1); lia).
    destruct (Z.ltb_spec (n + 268435456) 0x8000000); lia.
  - rewrite Z.mod_small by lia.
    destruct (Z.ltb_spec n 0x8000000); lia.
Qed.

End SplitJoin.

(** ** Claims on the register codec *)

(** C1 (as amended).  [get_int32] on four bytes b0..b3 returns
    [b0 | b1<<7 | b2<<14 | b3<<21] when that value is below [0x8000000], and
    that value minus [0x10000000] (which is [0x80 << 21], two to the 28) when
    it is at least [0x8000000]: two's-complement sign extension over 28
    bits. *)
Theorem C1_get_int32_sign_extends_28_bits
    (response : register_data) (index : nat) (b0 b1 b2 b3 : Z) :
  Parser.get response index = Some b0 ->
  Parser.get response (index + 1) = Some b1 ->
  Parser.get response (index + 2) = Some b2 ->
  Parser.get response (index + 3) = Some b3 ->
  Parser.get_int32 response index =
    Some (if Parser.reassemble b0 b1 b2 b3 <? 0x8000000
          then Parser.reassemble b0 b1 b2 b3
          else Parser.reassemble b0 b1 b2 b3 - 0x10000000).
Proof.
  intros G0 G1 G2 G3.
  assert (B : forall i b, Parser.get response i = Some b -> 0 <= b < 256).
  { unfold Parser.get. intros i b. destruct (nth_error response i); simpl;
      [|discriminate].
    intros [= <-]. apply to_uint8_below. }
  unfold Parser.get_int32. rewrite G0, G1, G2, G3.
  rewrite decode_signed28_eq by eauto. reflexivity.
Qed.

Lemma C1_get_int32_sign_extends_28_bits_witness :
  Parser.get_int32 [0x7e; 0x7f; 0x7f; 0x7f] 0 =
    Some (if Parser.reassemble 0x7e 0x7f 0x7f 0x7f <? 0x8000000
          then Parser.reassemble 0x7e 0x7f 0x7f 0x7f
          else Parser.reassemble 0x7e 0x7f 0x7f 0x7f - 0x10000000).
Proof.
  apply (C1_get_int32_sign_extends_28_bits [0x7e; 0x7f; 0x7f; 0x7f] 0);
    reflexivity.
Defined.

(** C1 as stated fails: on the bytes 7f 7f 7f 7f the reassembled value is
    [0xfffffff], at least [0x8000000]; [get_int32] returns -1, not
    [0xfffffff - 0x8000000]. *)
Lemma C1_subtracting_0x8000000_is_refuted :
  0x8000000 <= Parser.reassemble 0x7f 0x7f 0x7f 0x7f /\
  Parser.get_int32 [0x7f; 0x7f; 0x7f; 0x7f] 0 = Some (-1) /\
  Parser.get_int32 [0x7f; 0x7f; 0x7f; 0x7f] 0 <>
    Some (Parser.reassemble 0x7f 0x7f 0x7f 0x7f - 0x8000000).
Proof.
  split; [|split].
  - vm_compute. discriminate.
  - reflexivity.
  - vm_compute. discriminate.
Qed.

Lemma get_int32_MakeCommand (command : Imu.t) :
  Parser.get_int32 (MakeCommand command) 0 =
    (let n := static_cast_int (Imu.y_deg command * 1000.0)%float in
     Some (Parser.decode_signed28 (Z.land n 0x7f)
                                  (Z.land (Z.shiftr n 7) 0x7f)
                                  (Z.land (Z.shiftr n 14) 0x7f)
                                  (Z.land (Z.shiftr n 21) 0x7f))) /\
  Parser.get_int32 (MakeCommand command) 4 =
    (let n := static_cast_int (Imu.x_deg command * 1000.0)%float in
     Some (Parser.decode_signed28 (Z.land n 0x7f)
                                  (Z.land (Z.shiftr n 7) 0x7f)
                                  (Z.land (Z.shiftr n 14) 0x7f)
                                  (Z.land (Z.shiftr n 21) 0x7f))).
Proof.
  unfold Parser.get_int32, Parser.get, MakeCommand.
  cbn [nth_error Nat.add option_map].
  rewrite !to_uint8_group. split; reflexivity.
Qed.




(** ** Claims on the poll chain *)

Ltac run_handler :=
  cbv [bind ret read_data modify issue halt checked FailIf fst snd app].

(** C3.  On a poll tick where [imu_command] is known and the rate is nonzero
    in either axis, the new [imu_command] is the old one plus rate times
    [period_s], with pitch limited by [min_y_deg] and [max_y_deg] (so that it
    lies between them when the limits are ordered) and yaw not limited; it
    is stored back into [imu_command] and its encoding is written to the
    gimbal's command registers before the telemetry read.  In particular,
    from [x_deg] = 5.0 with a period of 0.0025 s and a yaw rate of 10, one
    tick stores [x_deg] = 5.025 and the write encodes 5025. *)
Theorem C3_rate_tick_integrates_and_sends :
  (forall (p : Parameters.t) (d : TurretData.t) (current : Imu.t),
      TurretData.imu_command d = Some current ->
      rate_nonzero (TurretData.rate d) = true ->
      let next :=
        Imu.mk
          (Imu.x_deg current +
           Rate.x_deg_s (TurretData.rate d) * Parameters.period_s p)%float
          (std_max (Parameters.min_y_deg p)
             (std_min (Parameters.max_y_deg p)
                (Imu.y_deg current +
                 Rate.y_deg_s (TurretData.rate d) * Parameters.period_s p)%float))
      in
      DoPoll p d =
        (TurretData.set_imu_command (Some next) d,
         [ MemWrite (Parameters.gimbal_address p) 0x50 (MakeCommand next);
           MemRead (Parameters.gimbal_address p) 0x58 10 ToHandleCurrent ],
         Done tt) /\
      ((Parameters.min_y_deg p <=? Parameters.max_y_deg p)%float = true ->
       (Parameters.min_y_deg p <=? Imu.y_deg next)%float = true /\
       (Imu.y_deg next <=? Parameters.max_y_deg p)%float = true)) /\
  (forall (p : Parameters.t) (d : TurretData.t) (y : double),
      Parameters.period_s p = 0.0025%float ->
      TurretData.imu_command d = Some (Imu.mk 5.0 y) ->
      Rate.x_deg_s (TurretData.rate d) = 10%float ->
      exists next : Imu.t,
        TurretData.imu_command (final (DoPoll p d)) = Some next /\
        Imu.x_deg next = 5.025%float /\
        In (MemWrite (Parameters.gimbal_address p) 0x50 (MakeCommand next))
           (issued (DoPoll p d)) /\
        Parser.get_int32 (MakeCommand next) 4 = Some 5025).
Proof.
  assert (General : forall p d current,
    TurretData.imu_command d = Some current ->
    rate_nonzero (TurretData.rate d) = true ->
    DoPoll p d =
      (TurretData.set_imu_command (Some (next_command p d current)) d,
       [ MemWrite (Parameters.gimbal_address p) 0x50
           (MakeCommand (next_command p d current));
         MemRead (Parameters.gimbal_address p) 0x58 10 ToHandleCurrent ],
       Done tt)).
  { intros p d current Hknown Hrate.
    unfold DoPoll, SendImuCommand. run_handler.
    rewrite Hknown, Hrate. reflexivity. }
  split.
  - intros p d current Hknown Hrate next. split.
    + rewrite (General p d current Hknown Hrate). reflexivity.
    + intros Hlimits. subst next. cbn [Imu.y_deg].
      apply limit_in_range. exact Hlimits.
  - intros p d y Hperiod Hknown Hrate.
    assert (Hnz : rate_nonzero (TurretData.rate d) = true).
    { unfold rate_nonzero. rewrite Hrate. reflexivity. }
    exists (next_command p d (Imu.mk 5.0 y)).
    rewrite (General p d _ Hknown Hnz).
    assert (Hx : Imu.x_deg (next_command p d (Imu.mk 5.0 y)) = 5.025%float).
    { unfold next_command. cbn [Imu.x_deg]. rewrite Hrate, Hperiod.
      reflexivity. }
    repeat split.
    + exact Hx.
    + left. reflexivity.
    + destruct (get_int32_MakeCommand (next_command p d (Imu.mk 5.0 y)))
        as [_ ->].
      rewrite Hx. reflexivity.
Qed.

(** The end-to-end scenario of the specification: limits of -30 and 30
    degrees, a period of 0.0025 s, a known command of (5.0, -2.0) and a yaw
    rate of 10 degrees per second. *)
Lemma C3_rate_tick_integrates_and_sends_witness :
  let p := Parameters.mk 0.0025 98 99 (-120) 120 (-30) 30 in
  let d := TurretData.set_rate (Rate.mk 10 0)
             (TurretData.set_imu_command (Some (Imu.mk 5.0 (-2.0)))
                TurretData.initial) in
  DoPoll p d =
    (TurretData.set_imu_command (Some (Imu.mk 5.025 (-2.0))) d,
     [ MemWrite 98 0x50 [48; 112; 127; 127; 33; 39; 0; 0];
       MemRead 98 0x58 10 ToHandleCurrent ],
     Done tt).
Proof.
  intros p d.
  exact (proj1 (proj1 C3_rate_tick_integrates_and_sends p d (Imu.mk 5.0 (-2.0))
                  eq_refl eq_refl)).
Defined.

(** C9.  A timer completion with the operation-aborted code makes
    [HandleTimer] return at once: no timer is started, nothing is polled and
    the program does not fail.  Any other error code is fatal, before
    anything is issued.  On success the timer is started again and the poll
    runs. *)
Theorem C9_HandleTimer_by_error_code (p : Parameters.t) (d : TurretData.t) :
  HandleTimer p ec_operation_aborted d = (d, [], Done tt) /\
  (forall value : Z,
      HandleTimer p (ec_error value) d = (d, [], Halted (Failed (ec_error value)))) /\
  HandleTimer p ec_success d =
    (final (DoPoll p d),
     AsyncWait (Parameters.period_s p) :: issued (DoPoll p d),
     status (DoPoll p d)).
Proof.
  split; [|split].
  - reflexivity.
  - intros value. reflexivity.
  - unfold HandleTimer, StartTimer. run_handler.
    destruct (DoPoll p d) as [[d' out] st]. reflexivity.
Qed.

(** ** What [SetCommand] does *)

Lemma arbitrate_done (p : Parameters.t) (command : TurretCommand.t)
    (d : TurretData.t) :
  status (arbitrate p command d) = Done tt.
Proof.
  unfold arbitrate, SendImuCommand.
  destruct (TurretCommand.absolute command), (TurretCommand.imu command),
    (TurretCommand.rate command); reflexivity.
Qed.

Lemma SetCommand_eq (p : Parameters.t) (command : TurretCommand.t)
    (now : ptime) (d : TurretData.t) :
  SetCommand p command now d =
    if TurretCommand.sequence command =? TurretData.last_sequence d
    then (d, [CommandSignal (CommandLog.mk now command)], Done tt)
    else (final (arbitrate p command d),
          CommandSignal (CommandLog.mk now command) ::
            issued (arbitrate p command d) ++
            [RamWrite (Parameters.fire_control_address p) LedControl
               (if TurretCommand.laser_on command then 4 else 0)],
          Done tt).
Proof.
  unfold SetCommand. run_handler.
  destruct (TurretCommand.sequence command =? TurretData.last_sequence d).
  - reflexivity.
  - pose proof (arbitrate_done p command d) as Hdone.
    destruct (arbitrate p command d) as [[d' out] st].
    unfold status in Hdone. cbn [snd] in Hdone. subst st.
    unfold final, issued. cbn [fst snd].
    destruct (TurretCommand.laser_on command); reflexivity.
Qed.

(** ** [last_sequence] *)

Section LastSequence.

Lemma keeps_ret {A} (a : A) : keeps_last_sequence (ret a).
Proof. intros d. reflexivity. Qed.

Lemma keeps_halt {A} (h : Halt) : keeps_last_sequence (@halt A h).
Proof. intros d. reflexivity. Qed.

Lemma keeps_issue (a : Action) : keeps_last_sequence (issue a).
Proof. intros d. reflexivity. Qed.

Lemma keeps_read_data : keeps_last_sequence read_data.
Proof. intros d. reflexivity. Qed.

Lemma keeps_modify (f : TurretData.t -> TurretData.t) :
  (forall d, TurretData.last_sequence (f d) = TurretData.last_sequence d) ->
  keeps_last_sequence (modify f).
Proof. intros Hf d. apply Hf. Qed.

Lemma keeps_bind {A B} (m : M A) (f : A -> M B) :
  keeps_last_sequence m -> (forall a, keeps_last_sequence (f a)) ->
  keeps_last_sequence (bind m f).
Proof.
  intros Hm Hf d. unfold bind. specialize (Hm d).
  destruct (m d) as [[d1 out1] [a|h]]; unfold final in *; cbn [fst snd] in *.
  - specialize (Hf a d1). destruct (f a d1) as [[d2 out2] r].
    unfold final in Hf. cbn [fst snd] in *. congruence.
  - exact Hm.
Qed.

Lemma keeps_checked {A} (o : option A) : keeps_last_sequence (checked o).
Proof. destruct o; intros d; reflexivity. Qed.

Lemma keeps_FailIf (ec : ErrorCode) : keeps_last_sequence (FailIf ec).
Proof. destruct ec; intros d; reflexivity. Qed.

End LastSequence.

Create HintDb keeps.
#[local] Hint Resolve keeps_ret keeps_halt keeps_issue keeps_read_data
  keeps_checked keeps_FailIf : keeps.

Ltac keeps :=
  repeat first
    [ apply keeps_bind; [|intros]
    | apply keeps_modify; intros; reflexivity
    | solve [auto with keeps]
    | match goal with
      | |- keeps_last_sequence (match ?x with _ => _ end) => destruct x
      | |- keeps_last_sequence (if ?x then _ else _) => destruct x
      end ].

Lemma keeps_DoPoll (p : Parameters.t) : keeps_last_sequence (DoPoll p).
Proof. unfold DoPoll, SendImuCommand. keeps. Qed.

Lemma keeps_HandleTimer (p : Parameters.t) (ec : ErrorCode) :
  keeps_last_sequence (HandleTimer p ec).
Proof.
  unfold HandleTimer, StartTimer. destruct ec; keeps; apply keeps_DoPoll.
Qed.

Lemma keeps_HandleCommand ec response now :
  keeps_last_sequence (HandleCommand ec response now).
Proof. unfold HandleCommand, Emit. keeps. Qed.

Lemma keeps_HandleCurrent p ec response :
  keeps_last_sequence (HandleCurrent p ec response).
Proof. unfold HandleCurrent. keeps. Qed.

Lemma keeps_HandleFireControl ec response now :
  keeps_last_sequence (HandleFireControl ec response now).
Proof. unfold HandleFireControl, Emit. keeps. Qed.

Lemma keeps_SetCommand p command now :
  keeps_last_sequence (SetCommand p command now).
Proof. unfold SetCommand, arbitrate, SendImuCommand. keeps. Qed.

Lemma keeps_dispatch p (e : Event) : keeps_last_sequence (dispatch p e).
Proof.
  destruct e; cbn [dispatch].
  - apply keeps_HandleTimer.
  - apply keeps_HandleCommand.
  - apply keeps_HandleCurrent.
  - apply keeps_HandleFireControl.
  - apply keeps_FailIf.
  - apply keeps_SetCommand.
Qed.

Lemma keeps_run p (events : list Event) : keeps_last_sequence (run p events).
Proof.
  induction events as [|e rest IH]; cbn [run].
  - apply keeps_ret.
  - apply keeps_bind; [apply keeps_dispatch | intros _; exact IH].
Qed.

(** C10.  No handler writes [last_sequence]: after any sequence of submitted
    commands and timer, read and write completions it has the value it
    started with.  So the sequence test of [SetCommand] discards exactly the
    commands whose sequence equals that first value: such a command is
    logged and nothing else happens, and any other command reaches the laser
    update. *)
Theorem C10_last_sequence_is_never_written
    (p : Parameters.t) (events : list Event) (d : TurretData.t) :
  TurretData.last_sequence (final (run p events d)) =
    TurretData.last_sequence d /\
  forall (command : TurretCommand.t) (now : ptime),
    (TurretCommand.sequence command = TurretData.last_sequence d ->
     SetCommand p command now (final (run p events d)) =
       (final (run p events d),
        [CommandSignal (CommandLog.mk now command)], Done tt)) /\
    (TurretCommand.sequence command <> TurretData.last_sequence d ->
     In (RamWrite (Parameters.fire_control_address p) LedControl
           (if TurretCommand.laser_on command then 4 else 0))
        (issued (SetCommand p command now (final (run p events d))))).
Proof.
  pose proof (keeps_run p events d) as Hkept.
  split; [exact Hkept|].
  intros command now. rewrite SetCommand_eq, Hkept. split.
  - intros Heq. rewrite (proj2 (Z.eqb_eq _ _) Heq). reflexivity.
  - intros Hne. rewrite (proj2 (Z.eqb_neq _ _) Hne).
    unfold issued. cbn [fst snd]. right. apply in_or_app. right. left.
    reflexivity.
Qed.

(** ** Claims on command arbitration *)

Lemma arbitrate_absolute (p : Parameters.t) (command : TurretCommand.t)
    (d : TurretData.t) (a : Absolute.t) :
  TurretCommand.absolute command = Some a ->
  arbitrate p command d =
    (TurretData.set_rate Rate.default (TurretData.set_imu_command None d),
     [ RamWrite (Parameters.gimbal_address p) PitchCommand
         (static_cast_int
            (std_max (Parameters.min_y_deg p)
               (std_min (Parameters.max_y_deg p) (Absolute.y_deg a)) * 1000.0)%float);
       RamWrite (Parameters.gimbal_address p) AbsoluteYawCommand
         (encode_absolute14
            (std_max (Parameters.min_x_deg p)
               (std_min (Parameters.max_x_deg p) (Absolute.x_deg a)))) ],
     Done tt).
Proof. intros Ha. unfold arbitrate. rewrite Ha. reflexivity. Qed.

Lemma arbitrate_imu (p : Parameters.t) (command : TurretCommand.t)
    (d : TurretData.t) (c : Imu.t) :
  TurretCommand.absolute command = None ->
  TurretCommand.imu command = Some c ->
  arbitrate p command d =
    (TurretData.set_rate Rate.default
       (TurretData.set_imu_command
          (Some (Imu.mk (Imu.x_deg c)
                   (std_max (Parameters.min_y_deg p)
                      (std_min (Parameters.max_y_deg p) (Imu.y_deg c))))) d),
     [ MemWrite (Parameters.gimbal_address p) 0x50 (MakeCommand c) ],
     Done tt).
Proof. intros Ha Hc. unfold arbitrate. rewrite Ha, Hc. reflexivity. Qed.

(** C4.  With ordered limits, an absolute command whose [y_deg] exceeds
    [max_y_deg] makes the pitch write carry exactly the encoding of
    [max_y_deg], and one whose [y_deg] is below [min_y_deg] exactly that of
    [min_y_deg]; the yaw that is encoded lies between [min_x_deg] and
    [max_x_deg].  The writes are those three, in this order, unless the
    sequence test discards the command, and then there is none. *)
Theorem C4_absolute_command_is_limited
    (p : Parameters.t) (d : TurretData.t) (command : TurretCommand.t)
    (now : ptime) (a : Absolute.t) :
  TurretCommand.absolute command = Some a ->
  (Parameters.min_y_deg p <=? Parameters.max_y_deg p)%float = true ->
  (Parameters.min_x_deg p <=? Parameters.max_x_deg p)%float = true ->
  let limited_pitch_deg :=
    std_max (Parameters.min_y_deg p)
            (std_min (Parameters.max_y_deg p) (Absolute.y_deg a)) in
  let limited_yaw_deg :=
    std_max (Parameters.min_x_deg p)
            (std_min (Parameters.max_x_deg p) (Absolute.x_deg a)) in
  let pitch_command := static_cast_int (limited_pitch_deg * 1000.0)%float in
  device_writes (issued (SetCommand p command now d)) =
    (if TurretCommand.sequence command =? TurretData.last_sequence d then []
     else [ RamWrite (Parameters.gimbal_address p) PitchCommand pitch_command;
            RamWrite (Parameters.gimbal_address p) AbsoluteYawCommand
              (encode_absolute14 limited_yaw_deg);
            RamWrite (Parameters.fire_control_address p) LedControl
              (if TurretCommand.laser_on command then 4 else 0) ]) /\
  ((Parameters.max_y_deg p <? Absolute.y_deg a)%float = true ->
   pitch_command = static_cast_int (Parameters.max_y_deg p * 1000.0)%float) /\
  ((Absolute.y_deg a <? Parameters.min_y_deg p)%float = true ->
   pitch_command = static_cast_int (Parameters.min_y_deg p * 1000.0)%float) /\
  (Parameters.min_x_deg p <=? limited_yaw_deg)%float = true /\
  (limited_yaw_deg <=? Parameters.max_x_deg p)%float = true.
Proof.
  intros Ha Hy Hx limited_pitch_deg limited_yaw_deg pitch_command.
  split; [|split; [|split]].
  - rewrite SetCommand_eq.
    destruct (TurretCommand.sequence command =? TurretData.last_sequence d);
      [reflexivity|].
    rewrite (arbitrate_absolute p command d a Ha). reflexivity.
  - intros Habove. apply millidegrees_of_zeros.
    exact (limit_above _ _ _ Hy Habove).
  - intros Hbelow. unfold pitch_command, limited_pitch_deg.
    rewrite (limit_below _ _ _ Hbelow). reflexivity.
  - apply limit_in_range. exact Hx.
Qed.

Lemma C4_absolute_command_is_limited_witness :
  let p := Parameters.mk 0.0025 98 99 (-120) 120 (-30) 30 in
  let command :=
    TurretCommand.mk 1 (Some (Absolute.mk 200 45)) None None true in
  device_writes (issued (SetCommand p command 7 TurretData.initial)) =
    [ RamWrite 98 PitchCommand 30000;
      RamWrite 98 AbsoluteYawCommand 8193;
      RamWrite 99 LedControl 4 ].
Proof.
  intros p command.
  exact (proj1 (C4_absolute_command_is_limited p TurretData.initial command 7
                  (Absolute.mk 200 45) eq_refl eq_refl eq_refl)).
Defined.

(** C8 (as amended).  Every command that passes the sequence test, whichever
    of the absolute, IMU-relative, rate or no position branch it takes, ends
    with a write to the LED register of the fire-control board: 4 (bit 2
    set) when [laser_on] is true, 0 when it is false. *)
Theorem C8_accepted_command_writes_laser
    (p : Parameters.t) (d : TurretData.t) (command : TurretCommand.t)
    (now : ptime) :
  TurretCommand.sequence command <> TurretData.last_sequence d ->
  let leds := if TurretCommand.laser_on command then 4 else 0 in
  Z.testbit leds 2 = TurretCommand.laser_on command /\
  status (SetCommand p command now d) = Done tt /\
  exists before : list Action,
    issued (SetCommand p command now d) =
      before ++ [RamWrite (Parameters.fire_control_address p) LedControl leds].
Proof.
  intros Hne leds. rewrite SetCommand_eq.
  rewrite (proj2 (Z.eqb_neq _ _) Hne).
  split; [|split].
  - subst leds. destruct (TurretCommand.laser_on command); reflexivity.
  - reflexivity.
  - exists (CommandSignal (CommandLog.mk now command) ::
            issued (arbitrate p command d)).
    reflexivity.
Qed.

Lemma C8_accepted_command_writes_laser_witness :
  let p := Parameters.mk 0.0025 98 99 (-120) 120 (-30) 30 in
  let command := TurretCommand.mk 1 None None (Some (Rate.mk 10 0)) true in
  exists before : list Action,
    issued (SetCommand p command 7 TurretData.initial) =
      before ++ [RamWrite 99 LedControl 4].
Proof.
  intros p command.
  refine (proj2 (proj2 (C8_accepted_command_writes_laser p TurretData.initial
                          command 7 _))).
  vm_compute. discriminate.
Defined.

(** C8 as stated fails: a command with [laser_on] whose sequence equals
    [last_sequence] is logged and dropped before the laser update, so it
    writes nothing. *)
Lemma C8_discarded_command_writes_no_laser :
  let p := Parameters.mk 0.0025 98 99 (-120) 120 (-30) 30 in
  let command := TurretCommand.mk 0 None None None true in
  TurretCommand.laser_on command = true /\
  issued (SetCommand p command 7 TurretData.initial) =
    [CommandSignal (CommandLog.mk 7 command)] /\
  ~ In (RamWrite 99 LedControl 4)
       (issued (SetCommand p command 7 TurretData.initial)).
Proof.
  intros p command. split; [reflexivity|]. split; [reflexivity|].
  intros [H|[]]. discriminate H.
Qed.

(** ** Where the code departs from the claims *)

(** C7.  An accepted IMU-relative command stores the limited pitch in
    [imu_command] and resets the rate, but [SendImuCommand] is handed
    [*command.imu], the command as it came: with limits of -30 and 30 degrees
    and a requested pitch of 45, the state holds 30 and the gimbal write
    encodes 45000, not 30000. *)
Theorem C7_imu_write_encodes_the_requested_pitch :
  let p := Parameters.mk 0.0025 98 99 (-120) 120 (-30) 30 in
  let command := TurretCommand.mk 1 None (Some (Imu.mk 0 45)) None false in
  let r := SetCommand p command 7 TurretData.initial in
  TurretData.imu_command (final r) = Some (Imu.mk 0 30) /\
  TurretData.rate (final r) = Rate.default /\
  device_writes (issued r) =
    [ MemWrite 98 0x50 (MakeCommand (Imu.mk 0 45)); RamWrite 99 LedControl 0 ] /\
  Parser.get_int32 (MakeCommand (Imu.mk 0 45)) 0 = Some 45000 /\
  Parser.get_int32 (MakeCommand (Imu.mk 0 30)) 0 = Some 30000.
Proof.
  intros p command r. repeat split; reflexivity.
Qed.

(** The same for every accepted IMU-relative command: the bytes written are
    those of the command as requested. *)
Lemma SetCommand_imu_writes_request
    (p : Parameters.t) (d : TurretData.t) (command : TurretCommand.t)
    (now : ptime) (c : Imu.t) :
  TurretCommand.sequence command <> TurretData.last_sequence d ->
  TurretCommand.absolute command = None ->
  TurretCommand.imu command = Some c ->
  device_writes (issued (SetCommand p command now d)) =
    [ MemWrite (Parameters.gimbal_address p) 0x50 (MakeCommand c);
      RamWrite (Parameters.fire_control_address p) LedControl
        (if TurretCommand.laser_on command then 4 else 0) ].
Proof.
  intros Hne Ha Hc. rewrite SetCommand_eq.
  rewrite (proj2 (Z.eqb_neq _ _) Hne).
  rewrite (arbitrate_imu p command d c Ha Hc). reflexivity.
Qed.

(** C2.  [last_sequence] is compared but never assigned, so a command
    submitted twice with one sequence number is arbitrated twice: here the
    second submission writes to the gimbal and to the laser again. *)
Theorem C2_repeated_sequence_is_arbitrated_again :
  let p := Parameters.mk 0.0025 98 99 (-120) 120 (-30) 30 in
  let command := TurretCommand.mk 1 None (Some (Imu.mk 0 10)) None true in
  let first := SetCommand p command 7 TurretData.initial in
  let second := SetCommand p command 8 (final first) in
  TurretData.last_sequence (final first) = 0 /\
  issued second =
    [ CommandSignal (CommandLog.mk 8 command);
      MemWrite 98 0x50 (MakeCommand (Imu.mk 0 10));
      RamWrite 99 LedControl 4 ] /\
  device_writes (issued second) <> [].
Proof.
  intros p command first second. split; [reflexivity|]. split; [reflexivity|].
  vm_compute. discriminate.
Qed.

(** C6.  The yaw encoding of [SetCommand] does not invert the decoding of
    [HandleCurrent]: the register value 0 decodes to about -0.00139 degrees,
    which encodes to 8190; the value 0x3fff decodes to 0 degrees, which
    encodes to 8191; and 90 degrees encode to 8192, which decodes to a
    negative angle. *)
Theorem C6_absolute14_codec_is_not_inverse :
  encode_absolute14 (decode_absolute14 0) = 8190 /\
  encode_absolute14 (decode_absolute14 0x3fff) = 8191 /\
  encode_absolute14 90 = 8192 /\
  (decode_absolute14 (encode_absolute14 90) <? 0)%float = true.
Proof.
  repeat split; reflexivity.
Qed.

(** * Further properties of the code *)

(** ** The parser at the end of a response *)

Lemma get_None_iff (response : register_data) (index : nat) :
  Parser.get response index = None <-> (length response <= index)%nat.
Proof.
  unfold Parser.get. rewrite <- nth_error_None.
  destruct (nth_error response index); simpl; split; congruence.
Qed.

Lemma get_int32_None_iff (response : register_data) (index : nat) :
  Parser.get_int32 response index = None <->
  (length response < index + 4)%nat.
Proof.
  unfold Parser.get_int32.
  assert (S : forall i z, Parser.get response i = Some z ->
                          (i < length response)%nat).
  { intros i z E.
    destruct (Nat.lt_ge_cases i (length response)) as [|G]; [assumption|].
    apply get_None_iff in G. congruence. }
  destruct (Parser.get response index) eqn:E0,
    (Parser.get response (index + 1)) eqn:E1,
    (Parser.get response (index + 2)) eqn:E2,
    (Parser.get response (index + 3)) eqn:E3;
    repeat match goal with
           | E : Parser.get _ _ = Some _ |- _ => apply S in E
           | E : Parser.get _ _ = None |- _ => apply get_None_iff in E
           end;
    split; intros H; try discriminate H; try reflexivity; lia.
Qed.

(** X1.  [get_int32] has a result exactly when the response holds the four
    bytes it reads: with at least [index + 4] bytes it returns a value, and
    with fewer [std::string::at] throws [std::out_of_range]. *)
Theorem X1_get_int32_throws_iff_short (response : register_data) (index : nat) :
  ((index + 4 <= length response)%nat ->
   exists n : Z, Parser.get_int32 response index = Some n) /\
  ((length response < index + 4)%nat ->
   Parser.get_int32 response index = None).
Proof.
  split; intros H.
  - destruct (Parser.get_int32 response index) as [n|] eqn:E.
    + exists n. reflexivity.
    + apply get_int32_None_iff in E. lia.
  - apply get_int32_None_iff. exact H.
Qed.

(** X2.  Whatever the bytes, a value [get_int32] returns lies in
    [-2^27, 2^28); when every byte of the response has its top bit clear, as
    the register format has it, the value lies in [-2^27, 2^27), the signed
    28-bit range. *)
Theorem X2_get_int32_range
    (response : register_data) (index : nat) (n : Z) :
  Parser.get_int32 response index = Some n ->
  - 2 ^ 27 <= n < 2 ^ 28 /\
  (Forall (fun c => 0 <= c < 128) response -> - 2 ^ 27 <= n < 2 ^ 27).
Proof.
  unfold Parser.get_int32, Parser.get.
  destruct (nth_error response index) as [c0|] eqn:E0; [|discriminate].
  destruct (nth_error response (index + 1)) as [c1|] eqn:E1; [|discriminate].
  destruct (nth_error response (index + 2)) as [c2|] eqn:E2; [|discriminate].
  destruct (nth_error response (index + 3)) as [c3|] eqn:E3; [|discriminate].
  cbn [option_map]. intros [= <-].
  pose proof (to_uint8_below c0). pose proof (to_uint8_below c1).
  pose proof (to_uint8_below c2). pose proof (to_uint8_below c3).
  rewrite decode_signed28_eq by assumption.
  pose proof (reassemble_below _ _ _ _ H H0 H1 H2) as Hu.
  change (2 ^ 29) with 536870912 in Hu.
  change (2 ^ 27) with 134217728. change (2 ^ 28) with 268435456.
  split.
  - destruct (Z.ltb_spec (Parser.reassemble (to_uint8 c0) (to_uint8 c1)
                            (to_uint8 c2) (to_uint8 c3)) 0x8000000); lia.
  - intros Hseven. rewrite Forall_forall in Hseven.
    assert (S : forall i c, nth_error response i = Some c -> to_uint8 c = c /\ 0 <= c < 2 ^ 7).
    { intros i c E. apply nth_error_In, Hseven in E. split.
      - unfold to_uint8. apply Z.mod_small. change (2 ^ 8) with 256. lia.
      - change (2 ^ 7) with 128. exact E. }
    destruct (S _ _ E0) as [-> B0], (S _ _ E1) as [-> B1],
      (S _ _ E2) as [-> B2], (S _ _ E3) as [-> B3].
    assert (Hlow : 0 <= Parser.reassemble c0 c1 c2 c3 < 2 ^ 28).
    { unfold Parser.reassemble.
      pose proof (shiftl_below c1 7 7 ltac:(lia) B1 ltac:(lia)) as S1.
      pose proof (shiftl_below c2 14 7 ltac:(lia) B2 ltac:(lia)) as S2.
      pose proof (shiftl_below c3 21 7 ltac:(lia) B3 ltac:(lia)) as S3.
      simpl Z.add in S1, S2, S3.
      assert (2 ^ 7 < 2 ^ 28) by (apply Z.pow_lt_mono_r; lia).
      assert (2 ^ 14 < 2 ^ 28) by (apply Z.pow_lt_mono_r; lia).
      assert (2 ^ 21 < 2 ^ 28) by (apply Z.pow_lt_mono_r; lia).
      repeat apply lor_below; lia. }
    change (2 ^ 28) with 268435456 in Hlow.
    destruct (Z.ltb_spec (Parser.reassemble c0 c1 c2 c3) 0x8000000); lia.
Qed.

Lemma X2_get_int32_range_witness :
  - 2 ^ 27 <= -2000 < 2 ^ 28 /\
  (Forall (fun c => 0 <= c < 128) [48; 112; 127; 127] ->
   - 2 ^ 27 <= -2000 < 2 ^ 27).
Proof.
  exact (X2_get_int32_range [48; 112; 127; 127] 0 (-2000) eq_refl).
Defined.

(** ** Both directions of the 7-bit format *)

Lemma group_div (n k : Z) :
  0 <= k -> Z.land (Z.shiftr n k) 0x7f = (n / 2 ^ k) mod 128.
Proof.
  intros Hk. change 0x7f with (Z.ones 7). rewrite Z.land_ones by lia.
  rewrite Z.shiftr_div_pow2 by lia. reflexivity.
Qed.

Lemma reassemble_sum (b0 b1 b2 b3 : Z) :
  0 <= b0 < 128 -> 0 <= b1 < 128 -> 0 <= b2 < 128 -> 0 <= b3 < 128 ->
  Parser.reassemble b0 b1 b2 b3 = b0 + 128 * b1 + 16384 * b2 + 2097152 * b3.
Proof.
  intros H0 H1 H2 H3.
  set (N := b0 + 128 * b1 + 16384 * b2 + 2097152 * b3).
  assert (G0 : Z.land N 0x7f = b0).
  { rewrite <- (Z.shiftr_0_r N), group_div by lia. subst N.
    change (2 ^ 0) with 1. Z.div_mod_to_equations. lia. }
  assert (G1 : Z.land (Z.shiftr N 7) 0x7f = b1).
  { rewrite group_div by lia. subst N.
    change (2 ^ 7) with 128. Z.div_mod_to_equations. lia. }
  assert (G2 : Z.land (Z.shiftr N 14) 0x7f = b2).
  { rewrite group_div by lia. subst N.
    change (2 ^ 14) with 16384. Z.div_mod_to_equations. lia. }
  assert (G3 : Z.land (Z.shiftr N 21) 0x7f = b3).
  { rewrite group_div by lia. subst N.
    change (2 ^ 21) with 2097152. Z.div_mod_to_equations. lia. }
  rewrite <- G0 at 1. rewrite <- G1 at 1. rewrite <- G2 at 1.
  rewrite <- G3 at 1.
  rewrite reassemble_groups. change (2 ^ 28) with 268435456.
  apply Z.mod_small. subst N. lia.
Qed.

(** The 7-bit groups of a decoded value are the bytes it was decoded
    from. *)
Lemma groups_of_decode (b0 b1 b2 b3 : Z) :
  0 <= b0 < 128 -> 0 <= b1 < 128 -> 0 <= b2 < 128 -> 0 <= b3 < 128 ->
  Z.land (Parser.decode_signed28 b0 b1 b2 b3) 0x7f = b0 /\
  Z.land (Z.shiftr (Parser.decode_signed28 b0 b1 b2 b3) 7) 0x7f = b1 /\
  Z.land (Z.shiftr (Parser.decode_signed28 b0 b1 b2 b3) 14) 0x7f = b2 /\
  Z.land (Z.shiftr (Parser.decode_signed28 b0 b1 b2 b3) 21) 0x7f = b3.
Proof.
  intros H0 H1 H2 H3.
  rewrite decode_signed28_eq by lia.
  rewrite (reassemble_sum b0 b1 b2 b3) by assumption.
  rewrite <- (Z.shiftr_0_r (if _ <? _ then _ else _)) at 1.
  rewrite !group_div by lia.
  change (2 ^ 0) with 1. change (2 ^ 7) with 128.
  change (2 ^ 14) with 16384. change (2 ^ 21) with 2097152.
  destruct (Z.ltb_spec (b0 + 128 * b1 + 16384 * b2 + 2097152 * b3) 0x8000000);
    repeat split; Z.div_mod_to_equations; lia.
Qed.

(** X3.  [MakeCommand] inverts [get_int32] on a register image: if the
    milli-degree integers of a command are what eight bytes with clear top
    bits decode to, the string [MakeCommand] builds is those eight bytes. *)
Theorem X3_MakeCommand_reproduces_register_image
    (command : Imu.t) (b0 b1 b2 b3 b4 b5 b6 b7 : Z) :
  Forall (fun b => 0 <= b < 128) [b0; b1; b2; b3; b4; b5; b6; b7] ->
  static_cast_int (Imu.y_deg command * 1000.0)%float =
    Parser.decode_signed28 b0 b1 b2 b3 ->
  static_cast_int (Imu.x_deg command * 1000.0)%float =
    Parser.decode_signed28 b4 b5 b6 b7 ->
  MakeCommand command = [b0; b1; b2; b3; b4; b5; b6; b7].
Proof.
  intros Hb Hy Hx.
  repeat match goal with
         | H : Forall _ (_ :: _) |- _ => inversion_clear H
         end.
  unfold MakeCommand. cbv zeta. rewrite Hy, Hx, !to_uint8_group.
  destruct (groups_of_decode b0 b1 b2 b3) as (-> & -> & -> & ->);
    try assumption.
  destruct (groups_of_decode b4 b5 b6 b7) as (-> & -> & -> & ->);
    try assumption.
  reflexivity.
Qed.

Lemma X3_MakeCommand_reproduces_register_image_witness :
  MakeCommand (Imu.mk 5.025 (-2.0)) = [48; 112; 127; 127; 33; 39; 0; 0].
Proof.
  apply X3_MakeCommand_reproduces_register_image.
  - repeat constructor; lia.
  - reflexivity.
  - reflexivity.
Defined.

(** X4.  Whatever the command, a NaN or an angle beyond the register's range
    included, [MakeCommand] builds exactly eight bytes and each has its top
    bit clear. *)
Theorem X4_MakeCommand_is_eight_7bit_bytes (command : Imu.t) :
  length (MakeCommand command) = 8%nat /\
  Forall (fun b => 0 <= b < 128) (MakeCommand command).
Proof.
  split; [reflexivity|].
  unfold MakeCommand. cbv zeta. rewrite !to_uint8_group.
  repeat constructor; apply group_below.
Qed.

(** X5.  [MakeCommand] does not saturate: only the low 28 bits of each
    milli-degree integer reach the wire, and reading them back gives that
    integer wrapped into the signed 28-bit range. *)
Theorem X5_MakeCommand_wraps_to_28_bits (command : Imu.t) :
  Parser.get_int32 (MakeCommand command) 0 =
    Some ((static_cast_int (Imu.y_deg command * 1000.0)%float + 2 ^ 27)
            mod 2 ^ 28 - 2 ^ 27) /\
  Parser.get_int32 (MakeCommand command) 4 =
    Some ((static_cast_int (Imu.x_deg command * 1000.0)%float + 2 ^ 27)
            mod 2 ^ 28 - 2 ^ 27).
Proof.
  assert (W : forall n,
    Parser.decode_signed28 (Z.land n 0x7f) (Z.land (Z.shiftr n 7) 0x7f)
      (Z.land (Z.shiftr n 14) 0x7f) (Z.land (Z.shiftr n 21) 0x7f) =
    (n + 2 ^ 27) mod 2 ^ 28 - 2 ^ 27).
  { intros n.
    pose proof (group_below n). pose proof (group_below (Z.shiftr n 7)).
    pose proof (group_below (Z.shiftr n 14)).
    pose proof (group_below (Z.shiftr n 21)).
    rewrite decode_signed28_eq by lia. rewrite reassemble_groups.
    change (2 ^ 27) with 134217728. change (2 ^ 28) with 268435456.
    destruct (Z.ltb_spec (n mod 268435456) 0x8000000);
      Z.div_mod_to_equations; lia. }
  destruct (get_int32_MakeCommand command) as [-> ->]. cbv zeta.
  rewrite !W. split; reflexivity.
Qed.

(** ** The read and write completion handlers *)

Lemma get_Some_lt (response : register_data) (index : nat) (b : Z) :
  Parser.get response index = Some b -> (index < length response)%nat.
Proof.
  intros E.
  destruct (Nat.lt_ge_cases index (length response)) as [|G]; [assumption|].
  apply get_None_iff in G. congruence.
Qed.

Lemma get_int32_Some_le (response : register_data) (index : nat) (n : Z) :
  Parser.get_int32 response index = Some n ->
  (index + 4 <= length response)%nat.
Proof.
  intros E.
  destruct (Nat.lt_ge_cases (length response) (index + 4)) as [G|]; [|lia].
  apply get_int32_None_iff in G. congruence.
Qed.

(** X6.  A successful command-register read of at least eight bytes makes
    [HandleCommand] learn the command: pitch from bytes 0..3 and yaw from
    bytes 4..7, each the decoded integer divided by 1000.0; it stamps the
    time and publishes the state so updated, and asks nothing of the
    device. *)
Theorem X6_HandleCommand_learns_command
    (response : register_data) (now : ptime) (d : TurretData.t)
    (pitch yaw : Z) :
  Parser.get_int32 response 0 = Some pitch ->
  Parser.get_int32 response 4 = Some yaw ->
  let learned :=
    TurretData.set_timestamp now
      (TurretData.set_imu_command
         (Some (Imu.mk (double_of_int yaw / 1000.0)
                       (double_of_int pitch / 1000.0))) d) in
  HandleCommand ec_success response now d =
    (learned, [DataSignal learned], Done tt).
Proof.
  intros Hp Hy learned. unfold HandleCommand, Emit. run_handler.
  rewrite Hp, Hy. reflexivity.
Qed.

Lemma X6_HandleCommand_learns_command_witness :
  TurretData.imu_command
    (final (HandleCommand ec_success [48; 112; 127; 127; 33; 39; 0; 0] 3
              TurretData.initial)) =
    Some (Imu.mk 5.025 (-2.0)).
Proof.
  rewrite (X6_HandleCommand_learns_command
             [48; 112; 127; 127; 33; 39; 0; 0] 3 TurretData.initial
             (-2000) 5025 eq_refl eq_refl).
  reflexivity.
Defined.

(** X7.  A set error code is fatal to every read and write completion
    handler, [operation_aborted] included (only [HandleTimer] lets that one
    pass): the handler halts in [FailIf] with [data_] as it was and nothing
    issued. *)
Theorem X7_completion_error_is_fatal
    (p : Parameters.t) (ec : ErrorCode) (response : register_data)
    (now : ptime) (d : TurretData.t) :
  ec <> ec_success ->
  HandleCommand ec response now d = (d, [], Halted (Failed ec)) /\
  HandleCurrent p ec response d = (d, [], Halted (Failed ec)) /\
  HandleFireControl ec response now d = (d, [], Halted (Failed ec)) /\
  HandleWrite ec d = (d, [], Halted (Failed ec)).
Proof.
  intros Hec. destruct ec; [congruence| |]; repeat split; reflexivity.
Qed.

Lemma X7_completion_error_is_fatal_witness :
  HandleWrite ec_operation_aborted TurretData.initial =
    (TurretData.initial, [], Halted (Failed ec_operation_aborted)).
Proof.
  refine (proj2 (proj2 (proj2 (X7_completion_error_is_fatal
    (Parameters.mk 0.0025 98 99 (-120) 120 (-30) 30) ec_operation_aborted
    [] 0 TurretData.initial _)))).
  discriminate.
Defined.

(** X8.  A command-register response shorter than eight bytes makes
    [HandleCommand] halt on [std::out_of_range] before it assigns anything:
    [data_] is as it was and nothing is published. *)
Theorem X8_HandleCommand_short_response
    (response : register_data) (now : ptime) (d : TurretData.t) :
  (length response < 8)%nat ->
  HandleCommand ec_success response now d = (d, [], Halted OutOfRange).
Proof.
  intros Hshort. unfold HandleCommand, Emit. run_handler.
  destruct (Parser.get_int32 response 0) as [pitch|] eqn:E0; [|reflexivity].
  destruct (Parser.get_int32 response 4) as [yaw|] eqn:E4; [|reflexivity].
  apply get_int32_Some_le in E4. lia.
Qed.

Lemma X8_HandleCommand_short_response_witness :
  HandleCommand ec_success [48; 112; 127; 127; 33; 39; 0] 3 TurretData.initial =
    (TurretData.initial, [], Halted OutOfRange).
Proof.
  apply X8_HandleCommand_short_response. simpl. lia.
Defined.

(** X9.  A successful telemetry read of at least ten bytes makes
    [HandleCurrent] store the IMU pitch (bytes 0..3) and yaw (bytes 4..7),
    copy the IMU pitch into the absolute pitch, decode the absolute yaw from
    bytes 8 and 9, leave every other member alone, and chain exactly one
    request: the two-byte read at address 81 of the fire-control board. *)
Theorem X9_HandleCurrent_stores_telemetry
    (p : Parameters.t) (response : register_data) (d : TurretData.t)
    (pitch yaw lo hi : Z) :
  Parser.get_int32 response 0 = Some pitch ->
  Parser.get_int32 response 4 = Some yaw ->
  Parser.get response 8 = Some lo ->
  Parser.get response 9 = Some hi ->
  HandleCurrent p ec_success response d =
    (TurretData.set_absolute
       (Absolute.mk (decode_absolute14 (to_uint16 (Z.lor lo (Z.shiftl hi 7))))
                    (double_of_int pitch / 1000.0))
       (TurretData.set_imu
          (Imu.mk (double_of_int yaw / 1000.0) (double_of_int pitch / 1000.0))
          d),
     [MemRead (Parameters.fire_control_address p) 81 2 ToHandleFireControl],
     Done tt).
Proof.
  intros Hp Hy Hlo Hhi. unfold HandleCurrent. run_handler.
  rewrite Hp, Hy, Hlo, Hhi. reflexivity.
Qed.

Lemma X9_HandleCurrent_stores_telemetry_witness :
  issued (HandleCurrent (Parameters.mk 0.0025 98 99 (-120) 120 (-30) 30)
            ec_success [48; 112; 127; 127; 33; 39; 0; 0; 127; 127]
            TurretData.initial) =
    [MemRead 99 81 2 ToHandleFireControl].
Proof.
  rewrite (X9_HandleCurrent_stores_telemetry
             (Parameters.mk 0.0025 98 99 (-120) 120 (-30) 30)
             [48; 112; 127; 127; 33; 39; 0; 0; 127; 127] TurretData.initial
             (-2000) 5025 127 127 eq_refl eq_refl eq_refl eq_refl).
  reflexivity.
Defined.

(** X10.  A telemetry response shorter than ten bytes makes [HandleCurrent]
    halt on [std::out_of_range] without chaining the fire-control read.  It
    is not all-or-nothing: the members are assigned as the bytes are parsed,
    so a response of eight or nine bytes has already overwritten the IMU
    angles and the absolute pitch, while one of fewer than four bytes has
    changed nothing. *)
Theorem X10_HandleCurrent_short_response
    (p : Parameters.t) (response : register_data) (d : TurretData.t) :
  (length response < 10)%nat ->
  issued (HandleCurrent p ec_success response d) = [] /\
  status (HandleCurrent p ec_success response d) = Halted OutOfRange /\
  ((length response < 4)%nat ->
   final (HandleCurrent p ec_success response d) = d) /\
  (forall pitch yaw : Z,
      Parser.get_int32 response 0 = Some pitch ->
      Parser.get_int32 response 4 = Some yaw ->
      final (HandleCurrent p ec_success response d) =
        TurretData.set_absolute
          (Absolute.mk (Absolute.x_deg (TurretData.absolute d))
                       (double_of_int pitch / 1000.0))
          (TurretData.set_imu
             (Imu.mk (double_of_int yaw / 1000.0)
                     (double_of_int pitch / 1000.0)) d)).
Proof.
  intros Hshort. unfold HandleCurrent. run_handler.
  destruct (Parser.get_int32 response 0) as [pitch|] eqn:E0.
  2:{ repeat split; try reflexivity. intros ? ? [=]. }
  destruct (Parser.get_int32 response 4) as [yaw|] eqn:E4.
  2:{ apply get_int32_Some_le in E0. repeat split; try reflexivity.
      - intros; lia.
      - intros ? ? _ [=]. }
  destruct (Parser.get response 8) as [lo|] eqn:E8.
  2:{ apply get_int32_Some_le in E0. repeat split; try reflexivity.
      - intros; lia.
      - intros ? ? [= <-] [= <-]. reflexivity. }
  destruct (Parser.get response 9) as [hi|] eqn:E9.
  2:{ apply get_int32_Some_le in E0. repeat split; try reflexivity.
      - intros; lia.
      - intros ? ? [= <-] [= <-]. reflexivity. }
  apply get_Some_lt in E9. lia.
Qed.

Lemma X10_HandleCurrent_short_response_witness :
  status (HandleCurrent (Parameters.mk 0.0025 98 99 (-120) 120 (-30) 30)
            ec_success [48; 112; 127; 127; 33; 39; 0; 0; 127]
            TurretData.initial) = Halted OutOfRange.
Proof.
  refine (proj1 (proj2 (X10_HandleCurrent_short_response
    (Parameters.mk 0.0025 98 99 (-120) 120 (-30) 30)
    [48; 112; 127; 127; 33; 39; 0; 0; 127] TurretData.initial _))).
  simpl. lia.
Defined.

(** X11.  A successful fire-control read of at least two bytes sets
    [fire_enabled] from byte 0 and [agitator_enabled] from byte 1, each true
    exactly when the byte is not zero, stamps the time and publishes the
    state so updated; the other members keep their values. *)
Theorem X11_HandleFireControl_sets_flags
    (response : register_data) (now : ptime) (d : TurretData.t)
    (fire agitator : Z) :
  nth_error response 0 = Some fire ->
  nth_error response 1 = Some agitator ->
  let updated :=
    TurretData.mk now (TurretData.imu_command d) (TurretData.imu d)
      (TurretData.absolute d) (negb (fire =? 0)) (negb (agitator =? 0))
      (TurretData.rate d) (TurretData.last_sequence d) in
  HandleFireControl ec_success response now d =
    (updated, [DataSignal updated], Done tt).
Proof.
  intros Hf Ha updated. unfold HandleFireControl, Emit. run_handler.
  rewrite Hf, Ha. reflexivity.
Qed.

Lemma X11_HandleFireControl_sets_flags_witness :
  HandleFireControl ec_success [0; 200] 9 TurretData.initial =
    (TurretData.mk 9 None (Imu.mk 0 0) (Absolute.mk 0 0) false true
       Rate.default 0,
     [DataSignal (TurretData.mk 9 None (Imu.mk 0 0) (Absolute.mk 0 0) false
                    true Rate.default 0)],
     Done tt).
Proof.
  exact (X11_HandleFireControl_sets_flags [0; 200] 9 TurretData.initial
           0 200 eq_refl eq_refl).
Defined.

(** X12.  A fire-control response of fewer than two bytes makes
    [HandleFireControl] halt on [std::out_of_range] without publishing and
    without touching the time stamp or [agitator_enabled]; an empty response
    changes nothing at all. *)
Theorem X12_HandleFireControl_short_response
    (response : register_data) (now : ptime) (d : TurretData.t) :
  (length response < 2)%nat ->
  issued (HandleFireControl ec_success response now d) = [] /\
  status (HandleFireControl ec_success response now d) = Halted OutOfRange /\
  TurretData.timestamp (final (HandleFireControl ec_success response now d)) =
    TurretData.timestamp d /\
  TurretData.agitator_enabled
    (final (HandleFireControl ec_success response now d)) =
    TurretData.agitator_enabled d /\
  (response = [] -> final (HandleFireControl ec_success response now d) = d).
Proof.
  intros Hshort. unfold HandleFireControl, Emit. run_handler.
  destruct response as [|fire [|agitator rest]]; cbn [nth_error].
  - repeat split; reflexivity.
  - repeat split; try reflexivity. discriminate.
  - simpl in Hshort. lia.
Qed.

Lemma X12_HandleFireControl_short_response_witness :
  status (HandleFireControl ec_success [1] 9 TurretData.initial) =
    Halted OutOfRange.
Proof.
  refine (proj1 (proj2 (X12_HandleFireControl_short_response [1] 9
                          TurretData.initial _))).
  simpl. lia.
Defined.

(** ** The absolute yaw that is reported *)

(** X13.  With the scaling [HandleCurrent] applies, the absolute yaw it
    stores from two bytes with clear top bits is never positive and never
    reaches -0.0014 degrees: the whole 14-bit range of the encoder maps into
    that sliver below zero. *)
Theorem X13_absolute_yaw_reading_range (lo hi : Z) :
  0 <= lo < 128 -> 0 <= hi < 128 ->
  (decode_absolute14 (to_uint16 (Z.lor lo (Z.shiftl hi 7))) <=? 0)%float = true /\
  (-0.0014 <? decode_absolute14 (to_uint16 (Z.lor lo (Z.shiftl hi 7))))%float
    = true.
Proof.
  intros Hlo Hhi.
  assert (Hv : 0 <= Z.lor lo (Z.shiftl hi 7) < 2 ^ 14).
  { pose proof (shiftl_below hi 7 7 ltac:(lia) Hhi ltac:(lia)) as S.
    simpl Z.add in S.
    assert (2 ^ 7 < 2 ^ 14) by (apply Z.pow_lt_mono_r; lia).
    apply lor_below; lia. }
  change (2 ^ 14) with 16384 in Hv.
  unfold to_uint16. rewrite Z.mod_small by (change (2 ^ 16) with 65536; lia).
  set (v := Z.lor lo (Z.shiftl hi 7)) in *. clearbody v.
  assert (All : forallb
            (fun n => let a := decode_absolute14 (Z.of_nat n) in
                      PrimFloat.leb a 0 && PrimFloat.ltb (-0.0014) a)
            (seq 0 (Z.to_nat 16384)) = true) by (vm_compute; reflexivity).
  rewrite forallb_forall in All.
  specialize (All (Z.to_nat v)).
  rewrite Z2Nat.id in All by lia.
  apply andb_true_iff. apply All. apply in_seq. lia.
Qed.

Lemma X13_absolute_yaw_reading_range_witness :
  (decode_absolute14 (to_uint16 (Z.lor 127 (Z.shiftl 127 7))) <=? 0)%float = true /\
  (-0.0014 <? decode_absolute14 (to_uint16 (Z.lor 127 (Z.shiftl 127 7))))%float
    = true.
Proof.
  apply X13_absolute_yaw_reading_range; lia.
Defined.

(** ** The poll tick, case by case *)

Lemma DoPoll_eq (p : Parameters.t) (d : TurretData.t) :
  DoPoll p d =
    match TurretData.imu_command d with
    | None =>
        (d,
         [ MemRead (Parameters.gimbal_address p) 0x50 8 ToHandleCommand;
           MemRead (Parameters.gimbal_address p) 0x58 10 ToHandleCurrent ],
         Done tt)
    | Some current =>
        if rate_nonzero (TurretData.rate d)
        then (TurretData.set_imu_command (Some (next_command p d current)) d,
              [ MemWrite (Parameters.gimbal_address p) 0x50
                  (MakeCommand (next_command p d current));
                MemRead (Parameters.gimbal_address p) 0x58 10 ToHandleCurrent ],
              Done tt)
        else (d,
              [ MemRead (Parameters.gimbal_address p) 0x58 10 ToHandleCurrent ],
              Done tt)
    end.
Proof.
  unfold DoPoll, SendImuCommand. run_handler.
  destruct (TurretData.imu_command d); [|reflexivity].
  destruct (rate_nonzero (TurretData.rate d)); reflexivity.
Qed.

(** X14.  A poll tick moves nothing unless the command is known and a rate
    is set.  With [imu_command] unknown it asks for the eight command bytes
    and then for telemetry, whatever the rate; with [imu_command] known and
    both rates zero it only asks for telemetry.  In both cases [data_] is
    untouched and nothing is written. *)
Theorem X14_DoPoll_without_motion (p : Parameters.t) (d : TurretData.t) :
  (TurretData.imu_command d = None ->
   DoPoll p d =
     (d,
      [ MemRead (Parameters.gimbal_address p) 0x50 8 ToHandleCommand;
        MemRead (Parameters.gimbal_address p) 0x58 10 ToHandleCurrent ],
      Done tt)) /\
  (forall current : Imu.t,
      TurretData.imu_command d = Some current ->
      rate_nonzero (TurretData.rate d) = false ->
      DoPoll p d =
        (d,
         [ MemRead (Parameters.gimbal_address p) 0x58 10 ToHandleCurrent ],
         Done tt)).
Proof.
  split.
  - intros Hnone. rewrite DoPoll_eq, Hnone. reflexivity.
  - intros current Hknown Hrate. rewrite DoPoll_eq, Hknown, Hrate.
    reflexivity.
Qed.

(** X15.  [HandleTimer] halts for an error code other than
    [operation_aborted] and for nothing else: the poll it runs on success
    never fails.  On success the timer is started first, the telemetry read
    is requested last, and at most one device write lies between them. *)
Theorem X15_HandleTimer_halts_only_on_error
    (p : Parameters.t) (ec : ErrorCode) (d : TurretData.t) :
  (status (HandleTimer p ec d) = Done tt <->
   ec = ec_success \/ ec = ec_operation_aborted) /\
  (ec = ec_success ->
   exists between : list Action,
     issued (HandleTimer p ec d) =
       AsyncWait (Parameters.period_s p) :: between ++
       [MemRead (Parameters.gimbal_address p) 0x58 10 ToHandleCurrent] /\
     (length (device_writes between) <= 1)%nat).
Proof.
  split.
  - destruct ec as [| |value].
    + split; [auto|]. intros _.
      unfold HandleTimer, StartTimer. run_handler. rewrite DoPoll_eq.
      destruct (TurretData.imu_command d); [|reflexivity].
      destruct (rate_nonzero (TurretData.rate d)); reflexivity.
    + split; [auto|]. reflexivity.
    + split.
      * cbv. discriminate.
      * intros [H|H]; discriminate H.
  - intros ->. unfold HandleTimer, StartTimer. run_handler.
    rewrite DoPoll_eq.
    destruct (TurretData.imu_command d) as [current|].
    + destruct (rate_nonzero (TurretData.rate d)).
      * exists [MemWrite (Parameters.gimbal_address p) 0x50
                  (MakeCommand (next_command p d current))].
        split; [reflexivity|]. simpl. lia.
      * exists []. split; [reflexivity|]. simpl. lia.
    + exists [MemRead (Parameters.gimbal_address p) 0x50 8 ToHandleCommand].
      split; [reflexivity|]. simpl. lia.
Qed.

(** ** Command arbitration, branch by branch *)

Lemma arbitrate_rate_or_nothing (p : Parameters.t) (command : TurretCommand.t)
    (d : TurretData.t) :
  TurretCommand.absolute command = None ->
  TurretCommand.imu command = None ->
  arbitrate p command d =
    (match TurretCommand.rate command with
     | Some rate => TurretData.set_rate rate d
     | None => d
     end, [], Done tt).
Proof.
  intros Ha Hc. unfold arbitrate. rewrite Ha, Hc.
  destruct (TurretCommand.rate command); reflexivity.
Qed.

(** X16.  [SetCommand] never fails, and all it issues is the log entry,
    first and for every command, followed by device writes: never a read, a
    timer wait or a telemetry publication. *)
Theorem X16_SetCommand_logs_then_only_writes
    (p : Parameters.t) (command : TurretCommand.t) (now : ptime)
    (d : TurretData.t) :
  status (SetCommand p command now d) = Done tt /\
  issued (SetCommand p command now d) =
    CommandSignal (CommandLog.mk now command) ::
      device_writes (issued (SetCommand p command now d)).
Proof.
  rewrite SetCommand_eq.
  destruct (TurretCommand.sequence command =? TurretData.last_sequence d);
    [split; reflexivity|].
  split; [reflexivity|].
  unfold arbitrate, SendImuCommand.
  destruct (TurretCommand.absolute command), (TurretCommand.imu command),
    (TurretCommand.rate command); reflexivity.
Qed.

(** X17.  The branches of [SetCommand] are exclusive and ordered: a command
    that carries an absolute target is handled as if it carried nothing
    else, and one that carries an IMU-relative target but no absolute one as
    if it carried no rate.  The state reached and the device writes are
    those of the command with the lower-priority members removed. *)
Theorem X17_SetCommand_priority
    (p : Parameters.t) (command : TurretCommand.t) (now : ptime)
    (d : TurretData.t) :
  (forall a : Absolute.t,
      TurretCommand.absolute command = Some a ->
      let alone := TurretCommand.mk (TurretCommand.sequence command) (Some a)
                     None None (TurretCommand.laser_on command) in
      final (SetCommand p command now d) = final (SetCommand p alone now d) /\
      device_writes (issued (SetCommand p command now d)) =
        device_writes (issued (SetCommand p alone now d))) /\
  (forall c : Imu.t,
      TurretCommand.absolute command = None ->
      TurretCommand.imu command = Some c ->
      let alone := TurretCommand.mk (TurretCommand.sequence command) None
                     (Some c) None (TurretCommand.laser_on command) in
      final (SetCommand p command now d) = final (SetCommand p alone now d) /\
      device_writes (issued (SetCommand p command now d)) =
        device_writes (issued (SetCommand p alone now d))).
Proof.
  split.
  - intros a Ha alone. rewrite !SetCommand_eq.
    subst alone. cbn [TurretCommand.sequence TurretCommand.laser_on].
    destruct (TurretCommand.sequence command =? TurretData.last_sequence d);
      [split; reflexivity|].
    rewrite (arbitrate_absolute p command d a Ha).
    rewrite (arbitrate_absolute p
               (TurretCommand.mk (TurretCommand.sequence command) (Some a)
                  None None (TurretCommand.laser_on command)) d a eq_refl).
    split; reflexivity.
  - intros c Ha Hc alone. rewrite !SetCommand_eq.
    subst alone. cbn [TurretCommand.sequence TurretCommand.laser_on].
    destruct (TurretCommand.sequence command =? TurretData.last_sequence d);
      [split; reflexivity|].
    rewrite (arbitrate_imu p command d c Ha Hc).
    rewrite (arbitrate_imu p
               (TurretCommand.mk (TurretCommand.sequence command) None
                  (Some c) None (TurretCommand.laser_on command)) d c
               eq_refl eq_refl).
    split; reflexivity.
Qed.

(** X18.  An accepted command with neither an absolute nor an IMU-relative
    target never reaches the gimbal: its only device write is the laser
    byte.  A rate, if it carries one, replaces [data_.rate] for the poll
    loop to use; without one [data_] is left as it is and the motion under
    way goes on. *)
Theorem X18_rate_or_empty_command_leaves_gimbal
    (p : Parameters.t) (command : TurretCommand.t) (now : ptime)
    (d : TurretData.t) :
  TurretCommand.sequence command <> TurretData.last_sequence d ->
  TurretCommand.absolute command = None ->
  TurretCommand.imu command = None ->
  final (SetCommand p command now d) =
    match TurretCommand.rate command with
    | Some rate => TurretData.set_rate rate d
    | None => d
    end /\
  device_writes (issued (SetCommand p command now d)) =
    [RamWrite (Parameters.fire_control_address p) LedControl
       (if TurretCommand.laser_on command then 4 else 0)].
Proof.
  intros Hne Ha Hc. rewrite SetCommand_eq.
  rewrite (proj2 (Z.eqb_neq _ _) Hne).
  rewrite (arbitrate_rate_or_nothing p command d Ha Hc).
  split; reflexivity.
Qed.

Lemma X18_rate_or_empty_command_leaves_gimbal_witness :
  device_writes
    (issued (SetCommand (Parameters.mk 0.0025 98 99 (-120) 120 (-30) 30)
               (TurretCommand.mk 1 None None (Some (Rate.mk 10 0)) true) 7
               TurretData.initial)) =
    [RamWrite 99 LedControl 4].
Proof.
  refine (proj2 (X18_rate_or_empty_command_leaves_gimbal
    (Parameters.mk 0.0025 98 99 (-120) 120 (-30) 30)
    (TurretCommand.mk 1 None None (Some (Rate.mk 10 0)) true) 7
    TurretData.initial _ eq_refl eq_refl)).
  vm_compute. discriminate.
Defined.

(** ** A command and the tick after it *)

(** X19.  An accepted absolute command forgets the relative command and
    stops any rate motion, so the tick after it writes nothing and asks the
    gimbal for the eight command bytes again before the telemetry read,
    whatever rate was running before. *)
Theorem X19_absolute_command_forces_relearn
    (p : Parameters.t) (command : TurretCommand.t) (now : ptime)
    (d : TurretData.t) (a : Absolute.t) :
  TurretCommand.sequence command <> TurretData.last_sequence d ->
  TurretCommand.absolute command = Some a ->
  let after := TurretData.set_rate Rate.default
                 (TurretData.set_imu_command None d) in
  final (SetCommand p command now d) = after /\
  DoPoll p after =
    (after,
     [ MemRead (Parameters.gimbal_address p) 0x50 8 ToHandleCommand;
       MemRead (Parameters.gimbal_address p) 0x58 10 ToHandleCurrent ],
     Done tt).
Proof.
  intros Hne Ha after. split.
  - rewrite SetCommand_eq, (proj2 (Z.eqb_neq _ _) Hne).
    rewrite (arbitrate_absolute p command d a Ha). reflexivity.
  - rewrite DoPoll_eq. reflexivity.
Qed.

Lemma X19_absolute_command_forces_relearn_witness :
  let p := Parameters.mk 0.0025 98 99 (-120) 120 (-30) 30 in
  let d := TurretData.set_rate (Rate.mk 10 0)
             (TurretData.set_imu_command (Some (Imu.mk 5.0 (-2.0)))
                TurretData.initial) in
  let command := TurretCommand.mk 1 (Some (Absolute.mk 200 45)) None None true in
  final (SetCommand p command 7 d) = TurretData.initial.
Proof.
  intros p d command.
  refine (proj1 (X19_absolute_command_forces_relearn p command 7 d
                   (Absolute.mk 200 45) _ eq_refl)).
  vm_compute. discriminate.
Defined.

(** X20.  An accepted IMU-relative command stops rate motion: the state it
    leaves holds the command with limited pitch and a zero rate, and the
    tick after it writes nothing and only asks for telemetry. *)
Theorem X20_imu_command_then_tick_holds
    (p : Parameters.t) (command : TurretCommand.t) (now : ptime)
    (d : TurretData.t) (c : Imu.t) :
  TurretCommand.sequence command <> TurretData.last_sequence d ->
  TurretCommand.absolute command = None ->
  TurretCommand.imu command = Some c ->
  let after :=
    TurretData.set_rate Rate.default
      (TurretData.set_imu_command
         (Some (Imu.mk (Imu.x_deg c)
                  (std_max (Parameters.min_y_deg p)
                     (std_min (Parameters.max_y_deg p) (Imu.y_deg c))))) d) in
  final (SetCommand p command now d) = after /\
  DoPoll p after =
    (after,
     [ MemRead (Parameters.gimbal_address p) 0x58 10 ToHandleCurrent ],
     Done tt).
Proof.
  intros Hne Ha Hc after. split.
  - rewrite SetCommand_eq, (proj2 (Z.eqb_neq _ _) Hne).
    rewrite (arbitrate_imu p command d c Ha Hc). reflexivity.
  - rewrite DoPoll_eq. reflexivity.
Qed.

Lemma X20_imu_command_then_tick_holds_witness :
  let p := Parameters.mk 0.0025 98 99 (-120) 120 (-30) 30 in
  let d := TurretData.set_rate (Rate.mk 10 0) TurretData.initial in
  let command := TurretCommand.mk 1 None (Some (Imu.mk 0 45)) None false in
  final (SetCommand p command 7 d) =
    TurretData.set_imu_command (Some (Imu.mk 0 30)) TurretData.initial.
Proof.
  intros p d command.
  refine (proj1 (X20_imu_command_then_tick_holds p command 7 d (Imu.mk 0 45)
                   _ eq_refl eq_refl)).
  vm_compute. discriminate.
Defined.

(** X21.  Rate mode end to end: an accepted rate-only command with a nonzero
    rate, given while the relative command is known, writes nothing to the
    gimbal itself; the tick after it integrates that rate over one period
    from the known command, limits the pitch, stores the result and writes
    its encoding. *)
Theorem X21_rate_command_then_tick_moves
    (p : Parameters.t) (command : TurretCommand.t) (now : ptime)
    (d : TurretData.t) (rate : Rate.t) (current : Imu.t) :
  TurretCommand.sequence command <> TurretData.last_sequence d ->
  TurretCommand.absolute command = None ->
  TurretCommand.imu command = None ->
  TurretCommand.rate command = Some rate ->
  rate_nonzero rate = true ->
  TurretData.imu_command d = Some current ->
  let next :=
    Imu.mk
      (Imu.x_deg current + Rate.x_deg_s rate * Parameters.period_s p)%float
      (std_max (Parameters.min_y_deg p)
         (std_min (Parameters.max_y_deg p)
            (Imu.y_deg current +
             Rate.y_deg_s rate * Parameters.period_s p)%float)) in
  final (SetCommand p command now d) = TurretData.set_rate rate d /\
  DoPoll p (TurretData.set_rate rate d) =
    (TurretData.set_imu_command (Some next) (TurretData.set_rate rate d),
     [ MemWrite (Parameters.gimbal_address p) 0x50 (MakeCommand next);
       MemRead (Parameters.gimbal_address p) 0x58 10 ToHandleCurrent ],
     Done tt).
Proof.
  intros Hne Ha Hc Hr Hnz Hknown next. split.
  - rewrite SetCommand_eq, (proj2 (Z.eqb_neq _ _) Hne).
    rewrite (arbitrate_rate_or_nothing p command d Ha Hc), Hr. reflexivity.
  - rewrite DoPoll_eq. cbn [TurretData.set_rate TurretData.imu_command
                              TurretData.rate].
    rewrite Hknown, Hnz. reflexivity.
Qed.

Lemma X21_rate_command_then_tick_moves_witness :
  let p := Parameters.mk 0.0025 98 99 (-120) 120 (-30) 30 in
  let d := TurretData.set_imu_command (Some (Imu.mk 5.0 (-2.0)))
             TurretData.initial in
  let command := TurretCommand.mk 1 None None (Some (Rate.mk 10 0)) false in
  DoPoll p (TurretData.set_rate (Rate.mk 10 0) d) =
    (TurretData.set_imu_command (Some (Imu.mk 5.025 (-2.0)))
       (TurretData.set_rate (Rate.mk 10 0) d),
     [ MemWrite 98 0x50 [48; 112; 127; 127; 33; 39; 0; 0];
       MemRead 98 0x58 10 ToHandleCurrent ],
     Done tt).
Proof.
  intros p d command.
  refine (proj2 (X21_rate_command_then_tick_moves p command 7 d (Rate.mk 10 0)
                   (Imu.mk 5.0 (-2.0)) _ eq_refl eq_refl eq_refl eq_refl
                   eq_refl)).
  vm_compute. discriminate.
Defined.

(** X22.  Reading back what was written: if the gimbal returns the eight
    bytes [MakeCommand] built for a command whose milli-degree integers fit
    28 bits, [HandleCommand] learns those integers divided by 1000.0, the
    command rounded toward zero to a whole milli-degree. *)
Theorem X22_HandleCommand_reads_back_MakeCommand
    (command : Imu.t) (now : ptime) (d : TurretData.t) :
  - 2 ^ 27 <= static_cast_int (Imu.y_deg command * 1000.0)%float < 2 ^ 27 ->
  - 2 ^ 27 <= static_cast_int (Imu.x_deg command * 1000.0)%float < 2 ^ 27 ->
  TurretData.imu_command
    (final (HandleCommand ec_success (MakeCommand command) now d)) =
    Some (Imu.mk
            (double_of_int
               (static_cast_int (Imu.x_deg command * 1000.0)%float) / 1000.0)
            (double_of_int
               (static_cast_int (Imu.y_deg command * 1000.0)%float) / 1000.0)).
Proof.
  intros Hy Hx. unfold HandleCommand, Emit. run_handler.
  destruct (get_int32_MakeCommand command) as [-> ->]. cbv zeta.
  rewrite !decode_groups by assumption. reflexivity.
Qed.

Lemma X22_HandleCommand_reads_back_MakeCommand_witness :
  TurretData.imu_command
    (final (HandleCommand ec_success (MakeCommand (Imu.mk 5.0257 (-2.0))) 3
              TurretData.initial)) =
    Some (Imu.mk 5.025 (-2.0)).
Proof.
  apply (X22_HandleCommand_reads_back_MakeCommand (Imu.mk 5.0257 (-2.0)) 3
           TurretData.initial);
    (vm_compute; split; [discriminate | reflexivity]).
Defined.

(** ** What a handler leaves alone *)

(** X23.  [SetCommand] changes nothing it did not command: the measured IMU
    and absolute angles, the fire and agitator flags and the time stamp are
    the same after it as before, for every command. *)
Theorem X23_SetCommand_leaves_telemetry
    (p : Parameters.t) (command : TurretCommand.t) (now : ptime)
    (d : TurretData.t) :
  TurretData.imu (final (SetCommand p command now d)) = TurretData.imu d /\
  TurretData.absolute (final (SetCommand p command now d)) =
    TurretData.absolute d /\
  TurretData.fire_enabled (final (SetCommand p command now d)) =
    TurretData.fire_enabled d /\
  TurretData.agitator_enabled (final (SetCommand p command now d)) =
    TurretData.agitator_enabled d /\
  TurretData.timestamp (final (SetCommand p command now d)) =
    TurretData.timestamp d.
Proof.
  rewrite SetCommand_eq.
  destruct (TurretCommand.sequence command =? TurretData.last_sequence d);
    [repeat split; reflexivity|].
  unfold arbitrate, SendImuCommand.
  destruct (TurretCommand.absolute command), (TurretCommand.imu command),
    (TurretCommand.rate command); repeat split; reflexivity.
Qed.

Section Preserves.

Context {B : Type} (f : TurretData.t -> B).

Lemma preserves_ret {A} (a : A) : preserves f (ret a).
Proof. intros d. reflexivity. Qed.

Lemma preserves_halt {A} (h : Halt) : preserves f (@halt A h).
Proof. intros d. reflexivity. Qed.

Lemma preserves_issue (a : Action) : preserves f (issue a).
Proof. intros d. reflexivity. Qed.

Lemma preserves_read_data : preserves f read_data.
Proof. intros d. reflexivity. Qed.

Lemma preserves_modify (g : TurretData.t -> TurretData.t) :
  (forall d, f (g d) = f d) -> preserves f (modify g).
Proof. intros Hg d. apply Hg. Qed.

Lemma preserves_bind {A C} (m : M A) (k : A -> M C) :
  preserves f m -> (forall a, preserves f (k a)) -> preserves f (bind m k).
Proof.
  intros Hm Hk d. unfold bind. specialize (Hm d).
  destruct (m d) as [[d1 out1] [a|h]]; unfold final in *; cbn [fst snd] in *.
  - specialize (Hk a d1). destruct (k a d1) as [[d2 out2] r].
    unfold final in Hk. cbn [fst snd] in *. congruence.
  - exact Hm.
Qed.

Lemma preserves_checked {A} (o : option A) : preserves f (checked o).
Proof. destruct o; intros d; reflexivity. Qed.

Lemma preserves_FailIf (ec : ErrorCode) : preserves f (FailIf ec).
Proof. destruct ec; intros d; reflexivity. Qed.

End Preserves.

Ltac preserving :=
  repeat first
    [ apply preserves_bind; [|intros]
    | apply preserves_modify; intros; reflexivity
    | apply preserves_ret | apply preserves_halt | apply preserves_issue
    | apply preserves_read_data | apply preserves_checked
    | apply preserves_FailIf
    | match goal with
      | |- preserves _ (match ?x with _ => _ end) => destruct x
      | |- preserves _ (if ?x then _ else _) => destruct x
      end ].

Lemma preserves_rate_dispatch (p : Parameters.t) (e : Event) :
  is_command e = false -> preserves TurretData.rate (dispatch p e).
Proof.
  destruct e; cbn [dispatch is_command]; intros He; try discriminate He.
  - unfold HandleTimer, StartTimer, DoPoll, SendImuCommand.
    destruct ec; preserving.
  - unfold HandleCommand, Emit. preserving.
  - unfold HandleCurrent. preserving.
  - unfold HandleFireControl, Emit. preserving.
  - unfold HandleWrite. preserving.
Qed.

(** X24.  Only a command changes the rate: over any sequence of timer, read
    and write completions, however it ends, [data_.rate] keeps its value. *)
Theorem X24_rate_changes_only_by_command
    (p : Parameters.t) (events : list Event) (d : TurretData.t) :
  forallb (fun e => negb (is_command e)) events = true ->
  TurretData.rate (final (run p events d)) = TurretData.rate d.
Proof.
  revert d. induction events as [|e rest IH]; intros d Hall.
  - reflexivity.
  - cbn [forallb] in Hall. apply andb_true_iff in Hall as [He Hrest].
    apply negb_true_iff in He.
    cbn [run].
    apply (preserves_bind TurretData.rate (dispatch p e) (fun _ => run p rest)).
    + apply preserves_rate_dispatch. exact He.
    + intros _ d'. apply IH. exact Hrest.
Qed.

Lemma X24_rate_changes_only_by_command_witness :
  let p := Parameters.mk 0.0025 98 99 (-120) 120 (-30) 30 in
  let d := TurretData.set_rate (Rate.mk 10 0) TurretData.initial in
  TurretData.rate
    (final (run p [ TimerCompleted ec_success;
                    CommandReadCompleted ec_success
                      [48; 112; 127; 127; 33; 39; 0; 0] 3;
                    TimerCompleted ec_success;
                    WriteCompleted ec_success ] d)) = Rate.mk 10 0.
Proof.
  intros p d.
  exact (X24_rate_changes_only_by_command p
           [ TimerCompleted ec_success;
             CommandReadCompleted ec_success
               [48; 112; 127; 127; 33; 39; 0; 0] 3;
             TimerCompleted ec_success;
             WriteCompleted ec_success ] d eq_refl).
Defined.

(** ** What a run can issue *)

Section IssuesOnly.

Variable P : Action -> Prop.

Lemma issues_ret {A} (a : A) : issues_only P (ret a).
Proof. intros d. constructor. Qed.

Lemma issues_halt {A} (h : Halt) : issues_only P (@halt A h).
Proof. intros d. constructor. Qed.

Lemma issues_read_data : issues_only P read_data.
Proof. intros d. constructor. Qed.

Lemma issues_modify (g : TurretData.t -> TurretData.t) :
  issues_only P (modify g).
Proof. intros d. constructor. Qed.

Lemma issues_issue (a : Action) : P a -> issues_only P (issue a).
Proof. intros Ha d. repeat constructor. exact Ha. Qed.

Lemma issues_checked {A} (o : option A) : issues_only P (checked o).
Proof. destruct o; intros d; constructor. Qed.

Lemma issues_FailIf (ec : ErrorCode) : issues_only P (FailIf ec).
Proof. destruct ec; intros d; constructor. Qed.

Lemma issues_bind {A C} (m : M A) (k : A -> M C) :
  issues_only P m -> (forall a, issues_only P (k a)) ->
  issues_only P (bind m k).
Proof.
  intros Hm Hk d. unfold bind. specialize (Hm d).
  destruct (m d) as [[d1 out1] [a|h]]; unfold issued in *; cbn [fst snd] in *.
  - specialize (Hk a d1). destruct (k a d1) as [[d2 out2] r].
    unfold issued in Hk. cbn [fst snd] in *.
    apply Forall_app. split; assumption.
  - exact Hm.
Qed.

End IssuesOnly.

Ltac issuing :=
  repeat first
    [ apply issues_bind; [|intros]
    | apply issues_issue; solve [auto]
    | apply issues_ret | apply issues_halt | apply issues_read_data
    | apply issues_modify | apply issues_checked | apply issues_FailIf
    | match goal with
      | |- issues_only _ (match ?x with _ => _ end) => destruct x
      | |- issues_only _ (if ?x then _ else _) => destruct x
      end ].

(** Each handler against the requests its source can make. *)
Section HandlerRequests.

Variable P : Action -> Prop.
Variable p : Parameters.t.

Hypothesis P_command_read :
  P (MemRead (Parameters.gimbal_address p) 0x50 8 ToHandleCommand).
Hypothesis P_current_read :
  P (MemRead (Parameters.gimbal_address p) 0x58 10 ToHandleCurrent).
Hypothesis P_fire_read :
  P (MemRead (Parameters.fire_control_address p) 81 2 ToHandleFireControl).
Hypothesis P_command_write :
  forall c, P (MemWrite (Parameters.gimbal_address p) 0x50 (MakeCommand c)).
Hypothesis P_pitch_write :
  forall value, P (RamWrite (Parameters.gimbal_address p) PitchCommand value).
Hypothesis P_yaw_write :
  forall yaw, P (RamWrite (Parameters.gimbal_address p) AbsoluteYawCommand
                   (encode_absolute14 yaw)).
Hypothesis P_led_write :
  forall on : bool,
    P (RamWrite (Parameters.fire_control_address p) LedControl
         (if on then 4 else 0)).
Hypothesis P_data : forall snapshot, P (DataSignal snapshot).
Hypothesis P_log : forall log, P (CommandSignal log).

Lemma issues_DoPoll : issues_only P (DoPoll p).
Proof.
  intros d. rewrite DoPoll_eq.
  destruct (TurretData.imu_command d);
    [destruct (rate_nonzero (TurretData.rate d))|];
    unfold issued; cbn [fst snd]; repeat constructor; auto.
Qed.

Lemma issues_SetCommand command now : issues_only P (SetCommand p command now).
Proof.
  intros d. rewrite SetCommand_eq.
  destruct (TurretCommand.sequence command =? TurretData.last_sequence d);
    unfold issued; cbn [fst snd].
  - repeat constructor. auto.
  - constructor; [auto|]. apply Forall_app. split.
    + unfold arbitrate, SendImuCommand.
      destruct (TurretCommand.absolute command), (TurretCommand.imu command),
        (TurretCommand.rate command); cbn; repeat constructor; auto.
    + repeat constructor. auto.
Qed.

Lemma issues_dispatch_other (e : Event) :
  (forall ec, e <> TimerCompleted ec) -> issues_only P (dispatch p e).
Proof.
  destruct e; cbn [dispatch]; intros Hother.
  - destruct (Hother ec eq_refl).
  - unfold HandleCommand, Emit. issuing.
  - unfold HandleCurrent. issuing.
  - unfold HandleFireControl, Emit. issuing.
  - unfold HandleWrite. issuing.
  - apply issues_SetCommand.
Qed.

Lemma issues_dispatch (P_timer : P (AsyncWait (Parameters.period_s p)))
    (e : Event) :
  issues_only P (dispatch p e).
Proof.
  destruct e; try (apply issues_dispatch_other; discriminate).
  cbn [dispatch]. unfold HandleTimer, StartTimer.
  destruct ec; issuing; apply issues_DoPoll.
Qed.

Lemma issues_run (P_timer : P (AsyncWait (Parameters.period_s p)))
    (events : list Event) :
  issues_only P (run p events).
Proof.
  induction events as [|e rest IH]; cbn [run].
  - apply issues_ret.
  - apply issues_bind; [apply issues_dispatch; assumption | intros _; exact IH].
Qed.

End HandlerRequests.

Lemma MakeCommand_7bit (command : Imu.t) :
  Forall (fun b => 0 <= b < 128) (MakeCommand command).
Proof.
  unfold MakeCommand. cbv zeta. rewrite !to_uint8_group.
  repeat constructor; apply group_below.
Qed.

(** X25.  Whatever events arrive and however the run ends, the turret only
    ever makes the requests its call sites spell out: the timer wait with
    the configured period; the command, telemetry and fire-control reads at
    their fixed addresses and lengths; command writes of exactly eight
    7-bit bytes at 0x50 of the gimbal; a pitch write; an absolute-yaw write
    whose value fits 14 bits; and an LED write of 0 or 4. *)
Theorem X25_run_issues_only_expected_requests
    (p : Parameters.t) (events : list Event) (d : TurretData.t) :
  Forall (expected_request p) (issued (run p events d)).
Proof.
  apply (issues_run (expected_request p) p); cbn [expected_request].
  - left. repeat split.
  - right. left. repeat split.
  - right. right. repeat split.
  - intros c. repeat split. apply MakeCommand_7bit.
  - intros value. left. split; reflexivity.
  - intros yaw. right. left. repeat split; unfold encode_absolute14; lia.
  - intros on. right. right. repeat split. destruct on; auto.
  - intros snapshot. exact I.
  - intros log. exact I.
  - reflexivity.
Qed.

(** ** The timer chain *)

Lemma bind_Done {A C} (m : M A) (k : A -> M C) (d : TurretData.t) (c : C) :
  status (bind m k d) = Done c ->
  exists a : A,
    status (m d) = Done a /\
    status (k a (final (m d))) = Done c /\
    issued (bind m k d) = issued (m d) ++ issued (k a (final (m d))).
Proof.
  unfold bind, status, issued, final.
  destruct (m d) as [[d1 out1] [a|h]]; cbn [fst snd].
  - destruct (k a d1) as [[d2 out2] r] eqn:E; cbn [fst snd].
    intros ->. exists a. rewrite E. cbn [fst snd].
    split; [reflexivity|]. split; reflexivity.
  - intros H. discriminate H.
Qed.

Lemma no_timer_wait (l : list Action) :
  Forall (fun a => is_timer_wait a = false) l -> filter is_timer_wait l = [].
Proof.
  induction 1 as [|a l Ha _ IH]; [reflexivity|].
  cbn [filter]. rewrite Ha. exact IH.
Qed.

Lemma timer_waits_of_dispatch (p : Parameters.t) (e : Event) (d : TurretData.t) :
  filter is_timer_wait (issued (dispatch p e d)) =
    if is_tick e then [AsyncWait (Parameters.period_s p)] else [].
Proof.
  assert (Other : forall e', (forall ec, e' <> TimerCompleted ec) ->
            filter is_timer_wait (issued (dispatch p e' d)) = []).
  { intros e' He'. apply no_timer_wait.
    apply (issues_dispatch_other (fun a => is_timer_wait a = false) p);
      try reflexivity; try (intros; reflexivity); assumption. }
  destruct e as [ec| | | | |];
    try (rewrite Other by discriminate; reflexivity).
  destruct ec as [| |value]; cbn [is_tick dispatch]; try reflexivity.
  unfold HandleTimer, StartTimer. run_handler.
  pose proof (issues_DoPoll (fun a => is_timer_wait a = false) p
                eq_refl eq_refl (fun _ => eq_refl) d) as Hpoll.
  apply no_timer_wait in Hpoll.
  destruct (DoPoll p d) as [[d' out] st].
  unfold issued in *. cbn [fst snd filter is_timer_wait] in *.
  rewrite Hpoll. reflexivity.
Qed.

Lemma timer_waits_of_run (p : Parameters.t) (events : list Event) :
  forall d : TurretData.t,
    status (run p events d) = Done tt ->
    length (filter is_timer_wait (issued (run p events d))) =
      length (filter is_tick events).
Proof.
  induction events as [|e rest IH]; intros d Hdone.
  - reflexivity.
  - cbn [run] in *.
    destruct (bind_Done _ _ _ _ Hdone) as (a & _ & Hrest & ->).
    rewrite filter_app, length_app, timer_waits_of_dispatch.
    rewrite (IH _ Hrest). cbn [filter].
    destruct (is_tick e); reflexivity.
Qed.

(** X26.  The timer is started once by [AsyncStart] and once more by every
    timer completion without error, and by nothing else: in a run that does
    not halt, the timer waits issued number one more than the ticks, so a
    cancelled wait ends the chain and no command or read completion ever
    starts a second one. *)
Theorem X26_one_timer_wait_per_tick
    (p : Parameters.t) (events : list Event) (d : TurretData.t) :
  status ((AsyncStart p ;; run p events) d) = Done tt ->
  length (filter is_timer_wait (issued ((AsyncStart p ;; run p events) d))) =
    S (length (filter is_tick events)).
Proof.
  intros Hdone.
  destruct (bind_Done _ _ _ _ Hdone) as (started & _ & Hrun & ->).
  rewrite filter_app, length_app.
  change (final (AsyncStart p d)) with d in Hrun |- *.
  rewrite (timer_waits_of_run p events d Hrun). reflexivity.
Qed.

Lemma X26_one_timer_wait_per_tick_witness :
  let p := Parameters.mk 0.0025 98 99 (-120) 120 (-30) 30 in
  let events :=
    [ TimerCompleted ec_success;
      CommandSubmitted (TurretCommand.mk 1 None None (Some (Rate.mk 10 0)) true) 7;
      TimerCompleted ec_success;
      TimerCompleted ec_operation_aborted ] in
  length (filter is_timer_wait
            (issued ((AsyncStart p ;; run p events) TurretData.initial))) = 3%nat.
Proof.
  intros p events.
  exact (X26_one_timer_wait_per_tick p events TurretData.initial eq_refl).
Defined.

(** ** A request that is not a number *)

Lemma nan_not_lt (v hi : double) :
  PrimFloat.is_nan v = true -> (v <? hi)%float = false.
Proof.
  unfold PrimFloat.is_nan. intros H. apply negb_true_iff in H.
  rewrite eqb_spec in H. rewrite ltb_spec.
  unfold SFeqb in H. unfold SFltb.
  destruct (Prim2SF v) as [s|s| |s m e]; simpl in *.
  - discriminate H.
  - destruct s; discriminate H.
  - reflexivity.
  - change (Pos.compare_cont Eq m m) with (Pos.compare m m) in H.
    rewrite Z.compare_refl, Pos.compare_refl in H.
    destruct s; discriminate H.
Qed.

(** X27.  With ordered pitch limits, the pitch an accepted absolute command
    sends is always the truncation of an angle between [min_y_deg] and
    [max_y_deg], whatever was requested; a request that is a NaN is sent as
    [max_y_deg]. *)
Theorem X27_absolute_pitch_is_always_limited
    (p : Parameters.t) (d : TurretData.t) (command : TurretCommand.t)
    (now : ptime) (a : Absolute.t) :
  TurretCommand.sequence command <> TurretData.last_sequence d ->
  TurretCommand.absolute command = Some a ->
  (Parameters.min_y_deg p <=? Parameters.max_y_deg p)%float = true ->
  exists limited : double,
    In (RamWrite (Parameters.gimbal_address p) PitchCommand
          (static_cast_int (limited * 1000.0)%float))
       (issued (SetCommand p command now d)) /\
    (Parameters.min_y_deg p <=? limited)%float = true /\
    (limited <=? Parameters.max_y_deg p)%float = true /\
    (PrimFloat.is_nan (Absolute.y_deg a) = true ->
     static_cast_int (limited * 1000.0)%float =
       static_cast_int (Parameters.max_y_deg p * 1000.0)%float).
Proof.
  intros Hne Ha Hlimits.
  exists (std_max (Parameters.min_y_deg p)
            (std_min (Parameters.max_y_deg p) (Absolute.y_deg a))).
  split; [|split; [|split]].
  - rewrite SetCommand_eq, (proj2 (Z.eqb_neq _ _) Hne).
    rewrite (arbitrate_absolute p command d a Ha).
    unfold issued. cbn [fst snd]. right. left. reflexivity.
  - apply limit_in_range. exact Hlimits.
  - apply limit_in_range. exact Hlimits.
  - intros Hnan. apply millidegrees_of_zeros.
    unfold std_max, std_min. rewrite (nan_not_lt _ _ Hnan).
    destruct (Parameters.min_y_deg p <? Parameters.max_y_deg p)%float eqn:Hlt.
    + left. reflexivity.
    + exact (double_le_not_lt _ _ Hlimits Hlt).
Qed.

Lemma X27_absolute_pitch_is_always_limited_witness :
  let p := Parameters.mk 0.0025 98 99 (-120) 120 (-30) 30 in
  let command :=
    TurretCommand.mk 1 (Some (Absolute.mk 0 PrimFloat.nan)) None None false in
  exists limited : double,
    In (RamWrite 98 PitchCommand (static_cast_int (limited * 1000.0)%float))
       (issued (SetCommand p command 7 TurretData.initial)) /\
    (-30 <=? limited)%float = true /\
    (limited <=? 30)%float = true /\
    (PrimFloat.is_nan PrimFloat.nan = true ->
     static_cast_int (limited * 1000.0)%float = 30000).
Proof.
  intros p command.
  refine (X27_absolute_pitch_is_always_limited p TurretData.initial command 7
            (Absolute.mk 0 PrimFloat.nan) _ eq_refl eq_refl).
  vm_compute. discriminate.
Defined.
